(** * CogniSyncClient

    A shallow embedding of [cogni_sync_client/client.py]: the constructor
    and the six methods of [CogniSyncClient], together with the few
    primitives of Python's [str] and of the [requests] library the client
    calls.  Methods are programs in a small state-and-exception monad whose
    state holds the client object and the trace of requests handed to the
    HTTP session. *)

From Stdlib Require Import ZArith Ascii String.
From Stdlib Require Import DecimalString DecimalFacts DecimalPos DecimalN DecimalZ.
From stdpp Require Import base strings gmap list.

Local Open Scope Z_scope.
Set Warnings "-register-all,-clear-no-such-hyp".

(** ** Python [str] primitives *)

Module PyStr.

(** [c in chars] for a character and a string of candidates. *)
Fixpoint in_chars (c : ascii) (chars : string) : bool :=
  match chars with
  | EmptyString => false
  | String d rest => if Ascii.eqb c d then true else in_chars c rest
  end.

(** [s.rstrip(chars)]: drop the longest suffix made of characters of
    [chars]. *)
Fixpoint rstrip (chars s : string) : string :=
  match s with
  | EmptyString => EmptyString
  | String c rest =>
      match rstrip chars rest with
      | EmptyString => if in_chars c chars then EmptyString else String c EmptyString
      | kept => String c kept
      end
  end.

(** [s.lower()] on the ASCII letters, which is all header names use. *)
Definition lower_char (c : ascii) : ascii :=
  let n := nat_of_ascii c in
  if ((65 <=? n) && (n <=? 90))%nat then ascii_of_nat (n + 32) else c.

Fixpoint lower (s : string) : string :=
  match s with
  | EmptyString => EmptyString
  | String c rest => String (lower_char c) (lower rest)
  end.

(** A string of [n] copies of [c]: ['/' * n]. *)
Fixpoint replicate_char (n : nat) (c : ascii) : string :=
  match n with
  | O => EmptyString
  | S k => String c (replicate_char k c)
  end.

End PyStr.

(** ** JSON values

    What [json.loads] produces and [json.dumps] accepts: the payloads the
    client passes through.  Numbers are the integers; floating point is
    left out of the model. *)

Inductive JSON : Type :=
| JNull
| JBool (b : bool)
| JInt (z : Z)
| JStr (s : string)
| JArr (items : list JSON)
| JObj (members : list (string * JSON)).

(** ** The JSON codec

    A model of the standard [json] module as [requests] drives it:
    [dumps] with the default separators and [ensure_ascii], [loads] as a
    recursive-descent reader.  It serves as the concrete codec wherever
    the development needs one. *)

Module Json.

Definition dquote : ascii := "034"%char.
Definition backslash : ascii := "092"%char.

Definition hex_char (n : nat) : ascii :=
  if (n <? 10)%nat then ascii_of_nat (48 + n) else ascii_of_nat (87 + n).

(** One character of a string literal, escaped as [ensure_ascii] does. *)
Definition escape_char (c : ascii) : string :=
  let n := nat_of_ascii c in
  if Ascii.eqb c dquote then String backslash (String dquote "")
  else if Ascii.eqb c backslash then String backslash (String backslash "")
  else if (n =? 10)%nat then String backslash "n"
  else if (n =? 13)%nat then String backslash "r"
  else if (n =? 9)%nat then String backslash "t"
  else if (n =? 8)%nat then String backslash "b"
  else if (n =? 12)%nat then String backslash "f"
  else if ((32 <=? n) && (n <=? 126))%nat then String c ""
  else String backslash
         (String "u" (String "0" (String "0"
            (String (hex_char (n / 16)) (String (hex_char (n mod 16)) ""))))).

Fixpoint escape (s : string) : string :=
  match s with
  | EmptyString => EmptyString
  | String c rest => escape_char c +:+ escape rest
  end.

Definition dumps_str (s : string) : string :=
  String dquote (escape s +:+ String dquote "").

(** [repr] of an [int]: decimal digits, a minus sign when negative.  The
    interpreter's limit on the number of digits is not part of it. *)
Definition dumps_int (z : Z) : string :=
  DecimalString.NilZero.string_of_int (Z.to_int z).

Fixpoint dumps (v : JSON) : string :=
  match v with
  | JNull => "null"
  | JBool true => "true"
  | JBool false => "false"
  | JInt z => dumps_int z
  | JStr s => dumps_str s
  | JArr items => "[" +:+ String.concat ", " (map dumps items) +:+ "]"
  | JObj members =>
      "{" +:+ String.concat ", "
                (map (fun '(k, x) => dumps_str k +:+ ": " +:+ dumps x) members)
          +:+ "}"
  end.

Definition is_ws (c : ascii) : bool :=
  let n := nat_of_ascii c in
  ((n =? 32) || (n =? 9) || (n =? 10) || (n =? 13))%nat.

Fixpoint skip_ws (s : string) : string :=
  match s with
  | EmptyString => EmptyString
  | String c rest => if is_ws c then skip_ws rest else s
  end.

Definition digit_of (c : ascii) : option (Decimal.uint -> Decimal.uint) :=
  if Ascii.eqb c "0" then Some Decimal.D0
  else if Ascii.eqb c "1" then Some Decimal.D1
  else if Ascii.eqb c "2" then Some Decimal.D2
  else if Ascii.eqb c "3" then Some Decimal.D3
  else if Ascii.eqb c "4" then Some Decimal.D4
  else if Ascii.eqb c "5" then Some Decimal.D5
  else if Ascii.eqb c "6" then Some Decimal.D6
  else if Ascii.eqb c "7" then Some Decimal.D7
  else if Ascii.eqb c "8" then Some Decimal.D8
  else if Ascii.eqb c "9" then Some Decimal.D9
  else None.

Definition hex_val (c : ascii) : option nat :=
  let n := nat_of_ascii c in
  if ((48 <=? n) && (n <=? 57))%nat then Some (n - 48)%nat
  else if ((97 <=? n) && (n <=? 102))%nat then Some (n - 87)%nat
  else if ((65 <=? n) && (n <=? 70))%nat then Some (n - 55)%nat
  else None.

(** The longest run of digits at the front of [s]. *)
Fixpoint read_digits (s : string) : Decimal.uint * string :=
  match s with
  | EmptyString => (Decimal.Nil, EmptyString)
  | String c rest =>
      match digit_of c with
      | Some digit => let '(d, rest') := read_digits rest in (digit d, rest')
      | None => (Decimal.Nil, s)
      end
  end.

Definition is_float_mark (c : ascii) : bool :=
  Ascii.eqb c "." || Ascii.eqb c "e" || Ascii.eqb c "E".

(** What may follow an integer literal: not a digit, and not the start
    of a fraction or exponent. *)
Definition ends_int (rest : string) : bool :=
  match rest with
  | EmptyString => true
  | String c _ =>
      match digit_of c with
      | Some _ => false
      | None => negb (is_float_mark c)
      end
  end.

(** An integer literal: an optional minus sign, then a lone zero or
    digits that do not start with zero.  A fraction or exponent makes it
    a float, which the model does not represent. *)
Definition parse_int (s : string) : option (Z * string) :=
  let '(neg, s1) :=
    match s with
    | String c rest => if Ascii.eqb c "-" then (true, rest) else (false, s)
    | EmptyString => (false, s)
    end in
  match s1 with
  | EmptyString => None
  | String c rest =>
      match digit_of c with
      | None => None
      | Some _ =>
          let '(d, rest') :=
            if Ascii.eqb c "0" then (Decimal.zero, rest) else read_digits s1 in
          match rest' with
          | String m _ =>
              if is_float_mark m then None
              else Some (if neg then - Z.of_uint d else Z.of_uint d, rest')
          | EmptyString => Some (if neg then - Z.of_uint d else Z.of_uint d, rest')
          end
      end
  end.

Definition unescape (c : ascii) : option ascii :=
  if Ascii.eqb c dquote then Some dquote
  else if Ascii.eqb c backslash then Some backslash
  else if Ascii.eqb c "/" then Some "/"%char
  else if Ascii.eqb c "n" then Some "010"%char
  else if Ascii.eqb c "r" then Some "013"%char
  else if Ascii.eqb c "t" then Some "009"%char
  else if Ascii.eqb c "b" then Some "008"%char
  else if Ascii.eqb c "f" then Some "012"%char
  else None.

Definition hex4 (a b c d : ascii) : option nat :=
  match hex_val a, hex_val b, hex_val c, hex_val d with
  | Some x, Some y, Some z, Some w => Some (((x * 16 + y) * 16 + z) * 16 + w)%nat
  | _, _, _, _ => None
  end.

Definition push (c : ascii) (r : option (string * string)) : option (string * string) :=
  match r with
  | Some (str, rest) => Some (String c str, rest)
  | None => None
  end.

(** The rest of a string literal, after its opening quote. *)
Fixpoint parse_string (s : string) : option (string * string) :=
  match s with
  | EmptyString => None
  | String c r =>
      if Ascii.eqb c dquote then Some (EmptyString, r)
      else if Ascii.eqb c backslash then
        match r with
        | EmptyString => None
        | String e r1 =>
            if Ascii.eqb e "u" then
              match r1 with
              | String h1 (String h2 (String h3 (String h4 r2))) =>
                  match hex4 h1 h2 h3 h4 with
                  | Some n =>
                      if (n <? 256)%nat then push (ascii_of_nat n) (parse_string r2)
                      else None
                  | None => None
                  end
              | _ => None
              end
            else
              match unescape e with
              | Some ch => push ch (parse_string r1)
              | None => None
              end
        end
      else if (nat_of_ascii c <? 32)%nat then None
      else push c (parse_string r)
  end.

Fixpoint expect (lit s : string) : option string :=
  match lit, s with
  | EmptyString, _ => Some s
  | String a lit', String b s' => if Ascii.eqb a b then expect lit' s' else None
  | String _ _, EmptyString => None
  end.

(** [d[k] = v] on an insertion-ordered dict. *)
Fixpoint dict_set (k : string) (v : JSON) (d : list (string * JSON)) : list (string * JSON) :=
  match d with
  | [] => [(k, v)]
  | (k', v') :: rest =>
      if String.eqb k k' then (k, v) :: rest else (k', v') :: dict_set k v rest
  end.

Definition dict_of_pairs (pairs : list (string * JSON)) : list (string * JSON) :=
  fold_left (fun d kv => dict_set (fst kv) (snd kv) d) pairs [].

Fixpoint parse_value (fuel : nat) (s : string) : option (JSON * string) :=
  match fuel with
  | O => None
  | S fuel' =>
      match skip_ws s with
      | EmptyString => None
      | String c r =>
          if Ascii.eqb c dquote then
            match parse_string r with
            | Some (str, rest) => Some (JStr str, rest)
            | None => None
            end
          else if Ascii.eqb c "[" then
            match skip_ws r with
            | String c1 rest =>
                if Ascii.eqb c1 "]" then Some (JArr [], rest)
                else match parse_items fuel' r with
                     | Some (items, rest') => Some (JArr items, rest')
                     | None => None
                     end
            | EmptyString => None
            end
          else if Ascii.eqb c "{" then
            match skip_ws r with
            | String c1 rest =>
                if Ascii.eqb c1 "}" then Some (JObj [], rest)
                else match parse_members fuel' r with
                     | Some (pairs, rest') => Some (JObj (dict_of_pairs pairs), rest')
                     | None => None
                     end
            | EmptyString => None
            end
          else if Ascii.eqb c "n" then
            match expect "ull" r with Some rest => Some (JNull, rest) | None => None end
          else if Ascii.eqb c "t" then
            match expect "rue" r with Some rest => Some (JBool true, rest) | None => None end
          else if Ascii.eqb c "f" then
            match expect "alse" r with Some rest => Some (JBool false, rest) | None => None end
          else
            match parse_int (String c r) with
            | Some (z, rest) => Some (JInt z, rest)
            | None => None
            end
      end
  end
with parse_items (fuel : nat) (s : string) : option (list JSON * string) :=
  match fuel with
  | O => None
  | S fuel' =>
      match parse_value fuel' s with
      | None => None
      | Some (v, rest) =>
          match skip_ws rest with
          | String c rest1 =>
              if Ascii.eqb c "," then
                match parse_items fuel' rest1 with
                | Some (vs, rest2) => Some (v :: vs, rest2)
                | None => None
                end
              else if Ascii.eqb c "]" then Some ([v], rest1)
              else None
          | EmptyString => None
          end
      end
  end
with parse_members (fuel : nat) (s : string) : option (list (string * JSON) * string) :=
  match fuel with
  | O => None
  | S fuel' =>
      match skip_ws s with
      | EmptyString => None
      | String q r =>
          if Ascii.eqb q dquote then
            match parse_string r with
            | None => None
            | Some (k, rest) =>
                match skip_ws rest with
                | String c rest1 =>
                    if Ascii.eqb c ":" then
                      match parse_value fuel' rest1 with
                      | None => None
                      | Some (v, rest2) =>
                          match skip_ws rest2 with
                          | String c2 rest3 =>
                              if Ascii.eqb c2 "," then
                                match parse_members fuel' rest3 with
                                | Some (ms, rest4) => Some ((k, v) :: ms, rest4)
                                | None => None
                                end
                              else if Ascii.eqb c2 "}" then Some ([(k, v)], rest3)
                              else None
                          | EmptyString => None
                          end
                      end
                    else None
                | EmptyString => None
                end
            end
          else None
      end
  end.

(** The invariant of a Python [dict], at every level of a value: no key
    occurs twice. *)
Fixpoint unique_keys (v : JSON) : bool :=
  match v with
  | JArr items => forallb unique_keys items
  | JObj members =>
      bool_decide (NoDup (map fst members))
      && forallb (fun '(_, x) => unique_keys x) members
  | _ => true
  end.

(** The number of nodes of a value, containers counted with one more per
    element: enough fuel to read the value back. *)
Fixpoint weight (v : JSON) : nat :=
  match v with
  | JArr items => S (list_sum (map (fun x => S (weight x)) items))
  | JObj members => S (list_sum (map (fun '(_, x) => S (weight x)) members))
  | _ => 1
  end.

(** [json.loads]: one value, then nothing but white space.  A text with
    a float, [NaN], [Infinity] or an escape above [00ff] is beyond the
    values of the model and is not read. *)
Definition loads (s : string) : option JSON :=
  match parse_value (2 * String.length s + 2) s with
  | Some (v, rest) =>
      match skip_ws rest with
      | EmptyString => Some v
      | String _ _ => None
      end
  | None => None
  end.

End Json.

(** A value whose text reads back as the value, whatever follows it and
    with fuel to spare. *)
Definition reads_back (v : JSON) : Prop :=
  forall (fuel : nat) (rest : string),
    (Json.weight v <= fuel)%nat ->
    Json.ends_int rest = true ->
    Json.parse_value fuel (Json.dumps v +:+ rest) = Some (v, rest).

(** ** The parts of [requests] the client touches *)

Inductive Method : Type := GET | POST | PUT | DELETE.

(** [requests.structures.CaseInsensitiveDict]: the store maps the
    lower-cased name to the name as last written and its value. *)
Abbreviation CaseInsensitiveDict := (gmap string (string * string)).

Definition ci_setitem (name value : string) (d : CaseInsensitiveDict)
  : CaseInsensitiveDict :=
  <[PyStr.lower name := (name, value)]> d.


(** [d.update({...})], the items written in order. *)
Definition ci_update (d : CaseInsensitiveDict) (items : list (string * string))
  : CaseInsensitiveDict :=
  fold_left (fun acc kv => ci_setitem (fst kv) (snd kv) acc) items d.

(** [Dict[str, Any]], insertion-ordered. *)
Abbreviation Dict := (list (string * JSON)).

(** What one call of [Session.request] hands to the transport: verb, URL,
    the [params] mapping, the encoded body, and the session's headers. *)
Record Request : Type := {
  method : Method;
  url : string;
  params : option Dict;
  body : option string;
  req_headers : CaseInsensitiveDict
}.

Record Response : Type := {
  status_code : Z;
  content : string
}.

Inductive Exception : Type :=
| ConnectionError
| HTTPError (response : Response)
| JSONDecodeError (doc : string).

Record Session : Type := { headers : CaseInsensitiveDict }.

(** ** The client object *)

Record CogniSyncClient : Type := {
  base_url : string;
  api_key : string;
  session : Session
}.

(** ** Effects: the client object, the requests sent so far, exceptions *)

Record World : Type := {
  self : CogniSyncClient;
  sent : list Request
}.

Inductive Outcome (A : Type) : Type :=
| Return (a : A)
| Raise (e : Exception).
Arguments Return {A} a.
Arguments Raise {A} e.

Definition M (A : Type) : Type := World -> Outcome A * World.

#[global] Instance M_ret : MRet M := fun A a w => (Return a, w).

#[global] Instance M_bind : MBind M := fun A B f m w =>
  match m w with
  | (Return a, w') => f a w'
  | (Raise e, w') => (Raise e, w')
  end.

Definition raise {A : Type} (e : Exception) : M A := fun w => (Raise e, w).

(** Reading an attribute of [self]. *)
Definition getattr {A : Type} (field : CogniSyncClient -> A) : M A :=
  fun w => (Return (field (self w)), w).

(** [Response.raise_for_status]: [HTTPError], carrying the response, for a
    status in the 4xx and 5xx ranges, and nothing otherwise. *)
Definition raise_for_status (resp : Response) : M unit :=
  if (400 <=? status_code resp) && (status_code resp <? 600)
  then raise (HTTPError resp)
  else mret tt.

Definition is_success (status : Z) : bool := (200 <=? status) && (status <? 300).

(** ** URL components

    The split of a URL reference at its first [#] and, before it, its
    first [?] (RFC 3986, section 3): what a server is asked for (path and
    query) and what never leaves the client (fragment). *)

Module Url.

Fixpoint split_at (c : ascii) (s : string) : string * option string :=
  match s with
  | EmptyString => (EmptyString, None)
  | String a rest =>
      if Ascii.eqb a c then (EmptyString, Some rest)
      else let '(before, after) := split_at c rest in (String a before, after)
  end.

Definition fragment (u : string) : option string := snd (split_at "#" u).
Definition query (u : string) : option string := snd (split_at "?" (fst (split_at "#" u))).
Definition path (u : string) : string := fst (split_at "?" (fst (split_at "#" u))).

End Url.

(** ** The client's methods *)

(** What the client takes from its surroundings: the [requests] library
    and the network behind it. *)
Class Environment : Type := {
  (** the headers a fresh [requests.Session] starts with *)
  default_headers : CaseInsensitiveDict;
  (** the JSON codec behind [json=] and [Response.json] *)
  dumps : JSON -> string;
  loads : string -> option JSON;
  (** the network and the server: the final response to a request, or
      none when the connection fails *)
  transport : Request -> option Response
}.

(** The surroundings of a Python process: the codec above, over the
    given session defaults and server. *)
Definition python_env (defaults : CaseInsensitiveDict)
    (server : Request -> option Response) : Environment :=
  {| default_headers := defaults;
     dumps := Json.dumps;
     loads := Json.loads;
     transport := server |}.

Section Client.

Context `{env : Environment}.

(** [CogniSyncClient.__init__] *)
Definition __init__ (base_url api_key : string) : CogniSyncClient :=
  {| base_url := PyStr.rstrip "/" base_url;
     api_key := api_key;
     session :=
       {| headers :=
            ci_update default_headers
              [("Authorization", "Bearer " +:+ api_key);
               ("x-api-key", api_key);
               ("Content-Type", "application/json")] |} |}.

(** [Session.request]: the request carries the session's headers; a
    [json] argument other than [None] becomes the body. *)
Definition session_request (verb : Method) (u : string)
    (query : option Dict) (json : option JSON) : M Response :=
  fun w =>
    let req := {| method := verb; url := u; params := query;
                  body := dumps <$> json;
                  req_headers := headers (session (self w)) |} in
    let w' := {| self := self w; sent := sent w ++ [req] |} in
    match transport req with
    | Some resp => (Return resp, w')
    | None => (Raise ConnectionError, w')
    end.

Definition session_get (u : string) (query : option Dict) : M Response :=
  session_request GET u query None.
Definition session_post (u : string) (json : JSON) : M Response :=
  session_request POST u None (Some json).
Definition session_put (u : string) (json : JSON) : M Response :=
  session_request PUT u None (Some json).
Definition session_delete (u : string) : M Response :=
  session_request DELETE u None None.

(** [Response.json] *)
Definition json (resp : Response) : M JSON :=
  match loads (content resp) with
  | Some v => mret v
  | None => raise (JSONDecodeError (content resp))
  end.

Definition health : M JSON :=
  base ← getattr base_url;
  let url := base +:+ "/api/v1/health" in
  resp ← session_get url None;
  raise_for_status resp;;
  json resp.

Definition get_entity (entity_id : string) : M JSON :=
  base ← getattr base_url;
  let url := base +:+ "/api/v1/entities/" +:+ entity_id in
  resp ← session_get url None;
  raise_for_status resp;;
  json resp.

Definition list_entities (params : option Dict) : M JSON :=
  base ← getattr base_url;
  let url := base +:+ "/api/v1/entities" in
  resp ← session_get url params;
  raise_for_status resp;;
  json resp.

Definition create_entity (data : Dict) : M JSON :=
  base ← getattr base_url;
  let url := base +:+ "/api/v1/entities" in
  resp ← session_post url (JObj data);
  raise_for_status resp;;
  json resp.

Definition update_entity (entity_id : string) (data : Dict) : M JSON :=
  base ← getattr base_url;
  let url := base +:+ "/api/v1/entities/" +:+ entity_id in
  resp ← session_put url (JObj data);
  raise_for_status resp;;
  json resp.

Definition delete_entity (entity_id : string) : M JSON :=
  base ← getattr base_url;
  let url := base +:+ "/api/v1/entities/" +:+ entity_id in
  resp ← session_delete url;
  raise_for_status resp;;
  json resp.

(** A call of one of the six methods. *)
Inductive Call : Type :=
| Health
| GetEntity (entity_id : string)
| ListEntities (params : option Dict)
| CreateEntity (data : Dict)
| UpdateEntity (entity_id : string) (data : Dict)
| DeleteEntity (entity_id : string).

Definition call (c : Call) : M JSON :=
  match c with
  | Health => health
  | GetEntity entity_id => get_entity entity_id
  | ListEntities params => list_entities params
  | CreateEntity data => create_entity data
  | UpdateEntity entity_id data => update_entity entity_id data
  | DeleteEntity entity_id => delete_entity entity_id
  end.

End Client.

(** The state a freshly constructed client starts from. *)
Definition fresh `{env : Environment} (base_url api_key : string) : World :=
  {| self := __init__ base_url api_key; sent := [] |}.

(** A server that answers every request with a success status and the
    body it was sent. *)
Definition echoes (server : Request -> option Response) : Prop :=
  forall req, exists resp,
    server req = Some resp
    /\ is_success (status_code resp) = true
    /\ content resp = default EmptyString (body req).

(** Running [m] from [w] hands exactly one more request to the session,
    with the given verb and URL. *)
Definition issues_one {A : Type} (m : M A) (w : World)
    (verb : Method) (target : string) : Prop :=
  exists req,
    sent (snd (m w)) = sent w ++ [req] /\ method req = verb /\ url req = target.

(** ** Concrete surroundings, for running the client *)

Module Example.

(** The headers of a new session, as [requests] 2.x sets them. *)
Definition session_defaults : CaseInsensitiveDict :=
  ci_update ∅
    [("User-Agent", "python-requests/2.31.0");
     ("Accept-Encoding", "gzip, deflate");
     ("Accept", "*/*");
     ("Connection", "keep-alive")].

Definition python (server : Request -> option Response) : Environment :=
  python_env session_defaults server.

(** A server that answers every request alike. *)
Definition fixed_server (status : Z) (text : string) : Request -> option Response :=
  fun _ => Some {| status_code := status; content := text |}.

(** A server that sends the request body back with status 200. *)
Definition echo_server : Request -> option Response :=
  fun req => Some {| status_code := 200; content := default EmptyString (body req) |}.

(** A host nobody listens on. *)
Definition unreachable : Request -> option Response := fun _ => None.

Definition localhost : string := "http://localhost:3002".

(** A client built as the example script does, before its first call. *)
Definition start (env : Environment) : World :=
  @fresh env localhost "YOUR_API_KEY".

Definition status_ok : Dict := [("status", JStr "ok")].
Definition name_x : Dict := [("name", JStr "X")].

End Example.

(** ** Callers: the example script and the test suite

    [example_usage.py] and [tests/test_client.py] build a client from the
    process environment and call its methods.  A script runs over the
    client's world and what it has printed. *)

(** [os.getenv(key, default)]: the value when the variable is set, even
    to the empty string, and the default otherwise. *)
Definition getenv (environ : gmap string string) (key fallback : string) : string :=
  default fallback (environ !! key).

(** One call of [print(label, x)], with [x] a value or a caught
    exception; the text [str(x)] is not modelled. *)
Inductive Printed : Type :=
| PrintValue (label : string) (v : JSON)
| PrintError (label : string) (e : Exception).

Record Process : Type := {
  world : World;
  stdout : list Printed
}.

Definition Script (A : Type) : Type := Process -> Outcome A * Process.

#[global] Instance Script_ret : MRet Script := fun A a p => (Return a, p).

#[global] Instance Script_bind : MBind Script := fun A B f m p =>
  match m p with
  | (Return a, p') => f a p'
  | (Raise e, p') => (Raise e, p')
  end.

(** A method call inside a script. *)
Definition lift {A : Type} (m : M A) : Script A :=
  fun p =>
    let '(r, w) := m (world p) in
    (r, {| world := w; stdout := stdout p |}).

Definition print_value (label : string) (v : JSON) : Script unit :=
  fun p => (Return tt, {| world := world p; stdout := stdout p ++ [PrintValue label v] |}).

Definition print_error (label : string) (e : Exception) : Script unit :=
  fun p => (Return tt, {| world := world p; stdout := stdout p ++ [PrintError label e] |}).

(** [try: body  except Exception as e: handler(e)] *)
Definition try_except {A : Type} (body : Script A) (handler : Exception -> Script A)
  : Script A :=
  fun p =>
    match body p with
    | (Return a, p') => (Return a, p')
    | (Raise e, p') => handler e p'
    end.

(** How [unittest] reports a test method: passed, failed on an
    assertion, or stopped by another exception. *)
Inductive Verdict : Type :=
| Passed
| Failed
| Errored (e : Exception)
| ErroredTypeError.

(** [needle in haystack] for two strings. *)
Fixpoint is_substring (needle haystack : string) : bool :=
  String.prefix needle haystack
  || match haystack with
     | EmptyString => false
     | String _ rest => is_substring needle rest
     end.

(** [member in container] for a string [member]: a key of a dict, an
    element of a list, a substring of a string; [None] is the
    [TypeError] of a container that cannot be searched. *)
Definition py_in (member : string) (container : JSON) : option bool :=
  match container with
  | JObj members => Some (bool_decide (member ∈ map fst members))
  | JArr items =>
      Some (existsb (fun x => match x with
                              | JStr s => String.eqb member s
                              | _ => false
                              end) items)
  | JStr s => Some (is_substring member s)
  | JNull | JBool _ | JInt _ => None
  end.

(** [isinstance(v, (list, dict))] *)
Definition is_list_or_dict (v : JSON) : bool :=
  match v with
  | JArr _ | JObj _ => true
  | _ => false
  end.


Section Callers.

Context `{env : Environment}.

(** [example_usage.main] *)
Definition main (environ : gmap string string) : Outcome unit * Process :=
  let BASE_URL := getenv environ "COGNISYNC_KG_BASE_URL" "http://localhost:3002" in
  let API_KEY := getenv environ "COGNISYNC_KG_API_KEY" "YOUR_API_KEY" in
  let client := __init__ BASE_URL API_KEY in
  (try_except
     (h ← lift health; print_value "Health:" h)
     (fun e => print_error "Health check failed:" e);;
   try_except
     (entities ← lift (list_entities None); print_value "Entities:" entities)
     (fun e => print_error "List entities failed:" e))
    {| world := {| self := client; sent := [] |}; stdout := [] |}.

(** [TestCogniSyncClient.setUpClass]: the client shared by the tests. *)
Definition setUpClass (environ : gmap string string) : World :=
  let base_url := getenv environ "COGNISYNC_KG_BASE_URL" "http://localhost:3002" in
  let api_key := getenv environ "COGNISYNC_KG_API_KEY" "YOUR_API_KEY" in
  {| self := __init__ base_url api_key; sent := [] |}.

(** [TestCogniSyncClient.test_health]: [assertIn('status', resp)] *)
Definition test_health (w : World) : Verdict * World :=
  match health w with
  | (Return resp, w') =>
      (match py_in "status" resp with
       | Some true => Passed
       | Some false => Failed
       | None => ErroredTypeError
       end, w')
  | (Raise e, w') => (Errored e, w')
  end.

(** [TestCogniSyncClient.test_list_entities]:
    [assertIsInstance(resp, (list, dict))] *)
Definition test_list_entities (w : World) : Verdict * World :=
  match list_entities None w with
  | (Return resp, w') => (if is_list_or_dict resp then Passed else Failed, w')
  | (Raise e, w') => (Errored e, w')
  end.

End Callers.

(** ** Payloads as Python values

    What a caller can hand to [create_entity] and [update_entity] as
    [data: Dict[str, Any]]: the shapes JSON has, and tuples, which
    [json.dumps] writes as arrays.  Floats and other types are left out. *)

Inductive PyValue : Type :=
| PyNone
| PyBool (b : bool)
| PyInt (z : Z)
| PyStr (s : string)
| PyList (items : list PyValue)
| PyTuple (items : list PyValue)
| PyDict (members : list (string * PyValue)).

(** The JSON value [json.dumps] writes for a Python value: a tuple goes
    out as an array, like a list. *)
Fixpoint json_of (v : PyValue) : JSON :=
  match v with
  | PyNone => JNull
  | PyBool b => JBool b
  | PyInt z => JInt z
  | PyStr s => JStr s
  | PyList items => JArr (map json_of items)
  | PyTuple items => JArr (map json_of items)
  | PyDict members => JObj (map (fun '(k, x) => (k, json_of x)) members)
  end.

(** The Python value [json.loads] builds: an array comes back as a list. *)
Fixpoint py_of (v : JSON) : PyValue :=
  match v with
  | JNull => PyNone
  | JBool b => PyBool b
  | JInt z => PyInt z
  | JStr s => PyStr s
  | JArr items => PyList (map py_of items)
  | JObj members => PyDict (map (fun '(k, x) => (k, py_of x)) members)
  end.

(** A value built from JSON's own shapes alone: no tuple at any level,
    and each dict with its keys distinct, as a Python dict has them. *)
Fixpoint json_native (v : PyValue) : bool :=
  match v with
  | PyList items => forallb json_native items
  | PyTuple _ => false
  | PyDict members =>
      bool_decide (NoDup (map fst members))
      && forallb (fun '(_, x) => json_native x) members
  | _ => true
  end.

(** [sys.int_info.default_max_str_digits]: beyond it the interpreter
    (from 3.11 on) refuses to write or read an integer in decimal. *)
Definition int_max_str_digits : Z := 4300.

(** Every integer of the value has at most [int_max_str_digits] digits. *)
Fixpoint ints_within_limit (v : PyValue) : bool :=
  match v with
  | PyInt z => Z.abs z <? 10 ^ int_max_str_digits
  | PyList items => forallb ints_within_limit items
  | PyTuple items => forallb ints_within_limit items
  | PyDict members => forallb (fun '(_, x) => ints_within_limit x) members
  | _ => true
  end.

(** How deep the containers of a value nest. *)
Fixpoint py_depth (v : PyValue) : nat :=
  match v with
  | PyList items => S (list_max (map py_depth items))
  | PyTuple items => S (list_max (map py_depth items))
  | PyDict members => S (list_max (map (fun '(_, x) => py_depth x) members))
  | _ => O
  end.

(** Nesting the interpreter's default recursion limit leaves ample room
    for. *)
Definition max_nesting : nat := 100.

Section PythonPayloads.

Context `{env : Environment}.


(** [update_entity(entity_id, data)] as the caller sees it. *)
Definition update_entity_py (entity_id : string) (data : list (string * PyValue))
  : M PyValue :=
  v ← update_entity entity_id (map (fun '(k, x) => (k, json_of x)) data);
  mret (py_of v).

End PythonPayloads.

(** Concrete payloads. *)

Module Payload.



(** [{"name": "X", "tags": ["a", None, True], "meta": {"n": -3}}] *)
Definition entity : list (string * PyValue) :=
  [("name", PyStr "X");
   ("tags", PyList [PyStr "a"; PyNone; PyBool true]);
   ("meta", PyDict [("n", PyInt (-3))])].

End Payload.

(** * Properties *)

(** ** [str.rstrip] *)

Lemma append_snoc_nonempty (t : string) (c : ascii) :
  t +:+ String c EmptyString <> EmptyString.
Proof. destruct t; discriminate. Qed.

(** The last character of a stripped string is not one of [chars]. *)
Lemma rstrip_last (chars s t : string) (c : ascii) :
  PyStr.rstrip chars s = t +:+ String c EmptyString ->
  PyStr.in_chars c chars = false.
Proof.
  revert t. induction s as [|a s IH]; intros t; simpl.
  - intros H. symmetry in H. now apply append_snoc_nonempty in H.
  - destruct (PyStr.rstrip chars s) as [|b kept] eqn:E.
    + destruct (PyStr.in_chars a chars) eqn:Ea.
      * intros H. symmetry in H. now apply append_snoc_nonempty in H.
      * destruct t as [|a' t']; simpl; intros H; inversion H; subst; [done|].
        exfalso. eapply append_snoc_nonempty. symmetry. eassumption.
    + destruct t as [|a' t']; simpl; intros H; inversion H; subst.
      now apply (IH t').
Qed.

Lemma rstrip_idempotent (chars s : string) :
  PyStr.rstrip chars (PyStr.rstrip chars s) = PyStr.rstrip chars s.
Proof.
  induction s as [|a s IH]; simpl; [done|].
  destruct (PyStr.rstrip chars s) as [|b kept] eqn:E.
  - destruct (PyStr.in_chars a chars) eqn:Ea; simpl; [done|]. now rewrite Ea.
  - change (PyStr.rstrip chars (String a (String b kept))) with
      (match PyStr.rstrip chars (String b kept) with
       | EmptyString => if PyStr.in_chars a chars then EmptyString else String a EmptyString
       | String c k => String a (String c k)
       end).
    now rewrite IH.
Qed.

(** Only characters of [chars] are dropped, and only at the end. *)
Lemma rstrip_suffix (c : ascii) (s : string) :
  exists n, s = PyStr.rstrip (String c EmptyString) s +:+ PyStr.replicate_char n c.
Proof.
  induction s as [|a s [n IH]]; simpl.
  - now exists O.
  - destruct (PyStr.rstrip (String c EmptyString) s) as [|b kept] eqn:E.
    + destruct (Ascii.eqb a c) eqn:Ea.
      * apply Ascii.eqb_eq in Ea. subst a. exists (S n). simpl. now rewrite IH at 1.
      * exists n. simpl. now rewrite IH at 1.
    + exists n. simpl. now rewrite IH at 1.
Qed.

(** C3: the base URL stored by the constructor is the input less its
    trailing slashes, so it never ends in a slash, whatever the input;
    and stripping is idempotent: stripping a stripped string changes
    nothing. *)
Theorem base_url_normalized `{env : Environment} (x api_key : string) :
  base_url (__init__ x api_key) = PyStr.rstrip "/" x
  /\ (forall t, base_url (__init__ x api_key) <> t +:+ "/")
  /\ (exists n, x = base_url (__init__ x api_key) +:+ PyStr.replicate_char n "/")
  /\ PyStr.rstrip "/" (PyStr.rstrip "/" x) = PyStr.rstrip "/" x
  /\ base_url (__init__ (base_url (__init__ x api_key)) api_key)
     = base_url (__init__ x api_key).
Proof.
  simpl. repeat split.
  - intros t H. apply rstrip_last in H. discriminate.
  - apply rstrip_suffix.
  - apply rstrip_idempotent.
  - apply rstrip_idempotent.
Qed.

(** ** URL components of a concatenation *)

Lemma str_app_assoc (a b c : string) : (a +:+ b) +:+ c = a +:+ (b +:+ c).
Proof.
  induction a as [|x a IH]; [reflexivity|].
  change (String x ((a +:+ b) +:+ c) = String x (a +:+ (b +:+ c))). now rewrite IH.
Qed.

Lemma in_chars_app (c : ascii) (a b : string) :
  PyStr.in_chars c (a +:+ b) = PyStr.in_chars c a || PyStr.in_chars c b.
Proof.
  induction a as [|x a IH]; simpl; [done|]. now destruct (Ascii.eqb c x).
Qed.

(** A prefix free of the separator stays in front of the split. *)
Lemma split_at_app (c : ascii) (a b : string) :
  PyStr.in_chars c a = false ->
  Url.split_at c (a +:+ b)
  = (a +:+ fst (Url.split_at c b), snd (Url.split_at c b)).
Proof.
  induction a as [|x a IH]; simpl.
  - intros _. change (EmptyString +:+ b) with b. now destruct (Url.split_at c b).
  - rewrite (Ascii.eqb_sym x c). destruct (Ascii.eqb c x); [discriminate|].
    intros H. rewrite (IH H). reflexivity.
Qed.

Lemma url_parts_app (a b : string) :
  PyStr.in_chars "?" a = false ->
  PyStr.in_chars "#" a = false ->
  Url.path (a +:+ b) = a +:+ Url.path b
  /\ Url.query (a +:+ b) = Url.query b
  /\ Url.fragment (a +:+ b) = Url.fragment b.
Proof.
  intros Hq Hf. unfold Url.path, Url.query, Url.fragment.
  rewrite (split_at_app "#" a b Hf). simpl.
  rewrite (split_at_app "?" a _ Hq). simpl. done.
Qed.

(** ** The codec reads back what it writes *)

Lemma append_cons (c : ascii) (a b : string) : String c a +:+ b = String c (a +:+ b).
Proof. reflexivity. Qed.

Lemma append_nil (b : string) : EmptyString +:+ b = b.
Proof. reflexivity. Qed.

Lemma parse_string_escape_char (c : ascii) (tail : string) :
  Json.parse_string (Json.escape_char c +:+ tail) = Json.push c (Json.parse_string tail).
Proof.
  destruct c as [[] [] [] [] [] [] [] []]; reflexivity.
Qed.

Lemma parse_string_escape (s rest : string) :
  Json.parse_string (Json.escape s +:+ String Json.dquote rest) = Some (s, rest).
Proof.
  induction s as [|c s IH].
  - reflexivity.
  - change (Json.escape (String c s)) with (Json.escape_char c +:+ Json.escape s).
    rewrite str_app_assoc, parse_string_escape_char, IH. reflexivity.
Qed.

Lemma read_digits_string (d : Decimal.uint) (rest : string) :
  Json.ends_int rest = true ->
  Json.read_digits (NilEmpty.string_of_uint d +:+ rest) = (d, rest).
Proof.
  intros Hrest. induction d; simpl NilEmpty.string_of_uint;
    rewrite ?append_cons, ?append_nil;
    try (cbn [Json.read_digits]; rewrite IHd; reflexivity).
  destruct rest as [|c rest']; [reflexivity|].
  cbn [Json.read_digits]. unfold Json.ends_int in Hrest.
  destruct (Json.digit_of c); [discriminate|reflexivity].
Qed.

Lemma nzhead_not_D0 (d d' : Decimal.uint) : Decimal.nzhead d <> Decimal.D0 d'.
Proof. induction d; simpl; try discriminate; assumption. Qed.

Lemma to_uint_not_D0 (p : positive) (d' : Decimal.uint) : Pos.to_uint p <> Decimal.D0 d'.
Proof.
  intros H.
  pose proof (DecimalPos.Unsigned.to_of (Pos.to_uint p)) as Hn.
  rewrite DecimalPos.Unsigned.of_to in Hn. simpl in Hn.
  rewrite H in Hn. unfold Decimal.unorm in Hn. simpl in Hn.
  destruct (Decimal.nzhead d') eqn:E; try discriminate Hn.
  - injection Hn as ->. exact (DecimalPos.Unsigned.to_uint_nonzero p H).
  - exact (nzhead_not_D0 _ _ E).
Qed.

(** The digits of a positive number: read back whole, not starting with zero. *)
Lemma parse_digits_of_pos (p : positive) (rest : string) :
  Json.ends_int rest = true ->
  exists c s,
    NilEmpty.string_of_uint (Pos.to_uint p) +:+ rest = String c s
    /\ Json.digit_of c <> None
    /\ Ascii.eqb c "0" = false
    /\ Json.read_digits (String c s) = (Pos.to_uint p, rest).
Proof.
  intros Hrest.
  pose proof (read_digits_string (Pos.to_uint p) rest Hrest) as Hread.
  pose proof (to_uint_not_D0 p) as Hnz.
  pose proof (DecimalPos.Unsigned.to_uint_nonnil p) as Hnn.
  destruct (Pos.to_uint p) as [|d|d|d|d|d|d|d|d|d|d]; try (now destruct Hnn);
    try (now destruct (Hnz d));
    simpl NilEmpty.string_of_uint in *; rewrite append_cons in *;
    eexists _, _; (split; [reflexivity|]); repeat split; try done; exact Hread.
Qed.

Lemma parse_int_dumps (z : Z) (rest : string) :
  Json.ends_int rest = true ->
  Json.parse_int (Json.dumps_int z +:+ rest) = Some (z, rest).
Proof.
  intros Hrest. unfold Json.dumps_int.
  assert (Htail : forall (n : Z) (neg : bool),
             match rest with
             | String m _ =>
                 if Json.is_float_mark m then None
                 else Some (if neg then - n else n, rest)
             | EmptyString => Some (if neg then - n else n, rest)
             end = Some (if neg then - n else n, rest)).
  { intros n neg. destruct rest as [|m rest']; [reflexivity|].
    unfold Json.ends_int in Hrest.
    destruct (Json.digit_of m); [discriminate|].
    now destruct (Json.is_float_mark m). }
  destruct z as [|p|p]; simpl Z.to_int; unfold NilZero.string_of_int.
  - change (NilZero.string_of_uint Decimal.zero) with "0"%string.
    rewrite append_cons, append_nil. unfold Json.parse_int. simpl.
    apply (Htail 0 false).
  - destruct (parse_digits_of_pos p rest Hrest) as (c & s & Hs & Hd & H0 & Hread).
    assert (Hprint : NilZero.string_of_uint (Pos.to_uint p)
                     = NilEmpty.string_of_uint (Pos.to_uint p)).
    { pose proof (DecimalPos.Unsigned.to_uint_nonnil p).
      now destruct (Pos.to_uint p). }
    rewrite Hprint, Hs. unfold Json.parse_int.
    assert (Hminus : Ascii.eqb c "-" = false).
    { destruct (Ascii.eqb_spec c "-") as [->|]; [|done]. now destruct Hd. }
    rewrite Hminus. destruct (Json.digit_of c) eqn:Ed; [|done].
    rewrite H0, Hread.
    replace (Z.of_uint (Pos.to_uint p)) with (Z.pos p)
      by (unfold Z.of_uint; now rewrite DecimalPos.Unsigned.of_to).
    apply (Htail (Z.pos p) false).
  - destruct (parse_digits_of_pos p rest Hrest) as (c & s & Hs & Hd & H0 & Hread).
    assert (Hprint : NilZero.string_of_uint (Pos.to_uint p)
                     = NilEmpty.string_of_uint (Pos.to_uint p)).
    { pose proof (DecimalPos.Unsigned.to_uint_nonnil p).
      now destruct (Pos.to_uint p). }
    rewrite Hprint, append_cons, Hs. unfold Json.parse_int.
    change (Ascii.eqb "-" "-") with true. cbv iota beta.
    destruct (Json.digit_of c) eqn:Ed; [|done].
    rewrite H0, Hread.
    replace (Z.of_uint (Pos.to_uint p)) with (Z.pos p)
      by (unfold Z.of_uint; now rewrite DecimalPos.Unsigned.of_to).
    apply (Htail (Z.pos p) true).
Qed.

(** *** Values *)

Lemma parse_value_space (fuel : nat) (s : string) :
  Json.parse_value fuel (String " " s) = Json.parse_value fuel s.
Proof. destruct fuel; reflexivity. Qed.

Lemma parse_items_space (fuel : nat) (s : string) :
  Json.parse_items fuel (String " " s) = Json.parse_items fuel s.
Proof.
  destruct fuel; [reflexivity|]. cbn [Json.parse_items].
  now rewrite parse_value_space.
Qed.

Lemma parse_members_space (fuel : nat) (s : string) :
  Json.parse_members fuel (String " " s) = Json.parse_members fuel s.
Proof. destruct fuel; reflexivity. Qed.

(** The first character of an integer literal. *)
Lemma dumps_int_head (z : Z) (rest : string) :
  exists c s,
    Json.dumps_int z +:+ rest = String c s
    /\ (Json.digit_of c <> None \/ c = "-"%char).
Proof.
  unfold Json.dumps_int.
  destruct z as [|p|p]; simpl Z.to_int; unfold NilZero.string_of_int.
  - eexists _, _. split; [reflexivity|]. now left.
  - destruct (parse_digits_of_pos p EmptyString eq_refl) as (c & s & Hs & Hd & _).
    pose proof (DecimalPos.Unsigned.to_uint_nonnil p) as Hnn.
    unfold NilZero.string_of_uint.
    destruct (Pos.to_uint p) eqn:E; try (now destruct Hnn);
      simpl NilEmpty.string_of_uint in *; rewrite append_cons in *;
      injection Hs as <- _; eexists _, _; (split; [reflexivity|]); now left.
  - eexists _, _. rewrite append_cons. split; [reflexivity|]. now right.
Qed.

Lemma dumps_head (v : JSON) (rest : string) :
  exists c s,
    Json.dumps v +:+ rest = String c s
    /\ Json.is_ws c = false
    /\ Ascii.eqb c "]" = false.
Proof.
  destruct v as [|[]|z|s|items|members];
    try (eexists _, _; split; [reflexivity|]; split; reflexivity).
  simpl Json.dumps. destruct (dumps_int_head z rest) as (c & s & Hs & Hc).
  exists c, s. split; [exact Hs|].
  destruct Hc as [Hd| ->]; [|split; reflexivity].
  split.
  - destruct (Json.is_ws c) eqn:E; [|done]. exfalso. apply Hd.
    unfold Json.is_ws in E.
    destruct c as [[] [] [] [] [] [] [] []]; try discriminate E; reflexivity.
  - destruct (Ascii.eqb_spec c "]") as [->|]; [|done]. now destruct Hd.
Qed.

Lemma parse_value_number (fuel : nat) (c : ascii) (s : string) :
  Json.digit_of c <> None \/ c = "-"%char ->
  Json.parse_value (S fuel) (String c s)
  = match Json.parse_int (String c s) with
    | Some (z, rest) => Some (JInt z, rest)
    | None => None
    end.
Proof.
  intros H.
  destruct c as [[] [] [] [] [] [] [] []];
    try reflexivity; exfalso; destruct H as [H|H]; try discriminate H; now apply H.
Qed.

Lemma parse_items_dumps (items : list JSON) :
  Forall reads_back items ->
  items <> [] ->
  forall (fuel : nat) (rest : string),
    (list_sum (map (fun x => S (Json.weight x)) items) <= fuel)%nat ->
    Json.parse_items fuel
      (String.concat ", " (map Json.dumps items) +:+ String "]" rest)
    = Some (items, rest).
Proof.
  induction items as [|x xs IH]; [done|].
  intros Hall _ fuel rest Hfuel.
  apply Forall_cons in Hall as [Hx Hxs].
  simpl in Hfuel. destruct fuel as [|fuel]; [lia|].
  cbn [Json.parse_items]. destruct xs as [|y ys].
  - change (String.concat ", " (map Json.dumps [x])) with (Json.dumps x).
    rewrite (Hx fuel (String "]" rest)) by (simpl in *; (lia || reflexivity)).
    reflexivity.
  - change (String.concat ", " (map Json.dumps (x :: y :: ys)))
      with (Json.dumps x +:+ ", " +:+ String.concat ", " (map Json.dumps (y :: ys))).
    rewrite !str_app_assoc, !append_cons, append_nil.
    rewrite (Hx fuel) by (simpl in *; (lia || reflexivity)).
    cbn [Json.skip_ws]. change (Json.is_ws ",") with false.
    change (Ascii.eqb "," ",") with true. cbv iota.
    rewrite parse_items_space, IH; [reflexivity|assumption|done|simpl in *; lia].
Qed.

Lemma parse_member_dumps (fuel : nat) (k : string) (x : JSON) (tail : string) :
  reads_back x ->
  (Json.weight x <= fuel)%nat ->
  Json.ends_int tail = true ->
  Json.parse_members (S fuel) ((Json.dumps_str k +:+ ": " +:+ Json.dumps x) +:+ tail)
  = match Json.skip_ws tail with
    | String c2 rest3 =>
        if Ascii.eqb c2 "," then
          match Json.parse_members fuel rest3 with
          | Some (ms, rest4) => Some ((k, x) :: ms, rest4)
          | None => None
          end
        else if Ascii.eqb c2 "}" then Some ([(k, x)], rest3)
        else None
    | EmptyString => None
    end.
Proof.
  intros Hx Hfuel Htail. unfold Json.dumps_str.
  rewrite !str_app_assoc, !append_cons, !str_app_assoc, !append_cons, !append_nil.
  cbn [Json.parse_members Json.skip_ws].
  change (Json.is_ws Json.dquote) with false. cbv iota.
  change (Ascii.eqb Json.dquote Json.dquote) with true. cbv iota.
  rewrite parse_string_escape. cbn [Json.skip_ws].
  change (Json.is_ws ":") with false. cbv iota.
  change (Ascii.eqb ":" ":") with true. cbv iota.
  rewrite parse_value_space, (Hx fuel tail Hfuel Htail). reflexivity.
Qed.

Lemma parse_members_dumps (members : list (string * JSON)) :
  Forall (fun kv => reads_back (snd kv)) members ->
  members <> [] ->
  forall (fuel : nat) (rest : string),
    (list_sum (map (fun '(_, x) => S (Json.weight x)) members) <= fuel)%nat ->
    Json.parse_members fuel
      (String.concat ", "
         (map (fun '(k, x) => Json.dumps_str k +:+ ": " +:+ Json.dumps x) members)
       +:+ String "}" rest)
    = Some (members, rest).
Proof.
  induction members as [|[k x] ms IH]; [done|].
  intros Hall _ fuel rest Hfuel.
  apply Forall_cons in Hall as [Hx Hms]. simpl in Hx.
  simpl in Hfuel. destruct fuel as [|fuel]; [lia|].
  destruct ms as [|[k' y] ms'].
  - change (String.concat ", "
              (map (fun '(k, x) => Json.dumps_str k +:+ ": " +:+ Json.dumps x) [(k, x)]))
      with (Json.dumps_str k +:+ ": " +:+ Json.dumps x).
    rewrite parse_member_dumps by (simpl in *; (assumption || lia || reflexivity)).
    reflexivity.
  - change (String.concat ", "
              (map (fun '(k, x) => Json.dumps_str k +:+ ": " +:+ Json.dumps x)
                 ((k, x) :: (k', y) :: ms')))
      with ((Json.dumps_str k +:+ ": " +:+ Json.dumps x) +:+ ", "
            +:+ String.concat ", "
                  (map (fun '(k, x) => Json.dumps_str k +:+ ": " +:+ Json.dumps x)
                     ((k', y) :: ms'))).
    rewrite (str_app_assoc (Json.dumps_str k +:+ ": " +:+ Json.dumps x)).
    rewrite parse_member_dumps by (simpl in *; (assumption || lia || reflexivity)).
    rewrite str_app_assoc, !append_cons, append_nil.
    cbn [Json.skip_ws]. change (Json.is_ws ",") with false.
    change (Ascii.eqb "," ",") with true. cbv iota.
    rewrite parse_members_space, IH; [reflexivity|assumption|done|simpl in *; lia].
Qed.

(** Writing the pairs of a dict into an empty one gives the dict back. *)
Lemma dict_set_fresh (k : string) (v : JSON) (d : list (string * JSON)) :
  k ∉ map fst d -> Json.dict_set k v d = d ++ [(k, v)].
Proof.
  induction d as [|[k' v'] d IH]; [reflexivity|].
  simpl. intros Hk. apply not_elem_of_cons in Hk as [Hne Hk].
  destruct (String.eqb_spec k k') as [->|_]; [done|]. now rewrite IH.
Qed.

Lemma dict_of_pairs_unique (pairs : list (string * JSON)) :
  NoDup (map fst pairs) -> Json.dict_of_pairs pairs = pairs.
Proof.
  unfold Json.dict_of_pairs.
  enough (H : forall acc,
             NoDup (map fst (acc ++ pairs)) ->
             fold_left (fun d kv => Json.dict_set (fst kv) (snd kv) d) pairs acc
             = acc ++ pairs) by (apply (H [])).
  induction pairs as [|[k v] pairs IH]; intros acc Hnd; simpl.
  - now rewrite app_nil_r.
  - rewrite dict_set_fresh.
    + rewrite IH; rewrite <- app_assoc; [reflexivity|exact Hnd].
    + rewrite map_app in Hnd. apply NoDup_app in Hnd as (_ & Hdisj & _).
      intros Hin. apply (Hdisj k Hin). simpl. left.
Qed.

Lemma list_sum_member {A : Type} (f : A -> nat) (x : A) (l : list A) :
  x ∈ l -> (f x <= list_sum (map f l))%nat.
Proof.
  induction 1 as [x l|x y l _ IH]; simpl; lia.
Qed.

Lemma concat_dumps_head (x : JSON) (xs : list JSON) (tail : string) :
  exists rest,
    String.concat ", " (map Json.dumps (x :: xs)) +:+ tail = Json.dumps x +:+ rest.
Proof.
  destruct xs as [|y ys].
  - now exists tail.
  - exists (", " +:+ String.concat ", " (map Json.dumps (y :: ys)) +:+ tail).
    change (String.concat ", " (map Json.dumps (x :: y :: ys)))
      with (Json.dumps x +:+ ", " +:+ String.concat ", " (map Json.dumps (y :: ys))).
    now rewrite !str_app_assoc.
Qed.

Lemma parse_value_dumps (n : nat) (v : JSON) :
  (Json.weight v <= n)%nat -> Json.unique_keys v = true -> reads_back v.
Proof.
  revert v. induction n as [|n IH]; intros v Hn Hwf.
  { destruct v; simpl in Hn; lia. }
  destruct v as [|b|z|s|items|members]; intros fuel rest Hfuel Hrest;
    (destruct fuel as [|fuel]; [simpl in Hfuel; lia|]).
  - reflexivity.
  - now destruct b.
  - simpl Json.dumps.
    destruct (dumps_int_head z rest) as (c & s & Hs & Hc).
    rewrite Hs, (parse_value_number fuel c s Hc), <- Hs, parse_int_dumps by assumption.
    reflexivity.
  - simpl Json.dumps. unfold Json.dumps_str.
    rewrite !append_cons, str_app_assoc, append_cons, append_nil.
    cbn [Json.parse_value Json.skip_ws].
    change (Json.is_ws Json.dquote) with false. cbv iota.
    change (Ascii.eqb Json.dquote Json.dquote) with true. cbv iota.
    now rewrite parse_string_escape.
  - simpl in Hn, Hfuel, Hwf.
    assert (Hitems : Forall reads_back items).
    { apply Forall_forall. intros x Hx. apply IH.
      - pose proof (list_sum_member (fun x => S (Json.weight x)) x items Hx). simpl in *. lia.
      - rewrite forallb_forall in Hwf. apply Hwf. now apply list_elem_of_In. }
    simpl Json.dumps.
    rewrite !append_cons, append_nil, str_app_assoc, append_cons, append_nil.
    destruct items as [|x xs]; [reflexivity|].
    destruct (concat_dumps_head x xs (String "]" rest)) as (tail & Htail).
    destruct (dumps_head x tail) as (c & s & Hs & Hws & Hclose).
    cbn [Json.parse_value Json.skip_ws].
    change (Json.is_ws "[") with false. cbv iota.
    change (Ascii.eqb "[" Json.dquote) with false.
    change (Ascii.eqb "[" "[") with true. cbv iota.
    rewrite parse_items_dumps by (done || lia).
    rewrite Htail, Hs. cbn [Json.skip_ws]. now rewrite Hws, Hclose.
  - simpl in Hn, Hfuel, Hwf. apply andb_true_iff in Hwf as [Hnd Hwf].
    apply bool_decide_eq_true in Hnd.
    assert (Hmembers : Forall (fun kv => reads_back (snd kv)) members).
    { apply Forall_forall. intros [k x] Hx. simpl. apply IH.
      - pose proof (list_sum_member (fun '(_, x) => S (Json.weight x)) (k, x) members Hx).
        simpl in *. lia.
      - rewrite forallb_forall in Hwf. apply (Hwf (k, x)). now apply list_elem_of_In. }
    simpl Json.dumps.
    rewrite !append_cons, append_nil, str_app_assoc, append_cons, append_nil.
    destruct members as [|[k x] ms]; [reflexivity|].
    cbn [Json.parse_value Json.skip_ws].
    change (Json.is_ws "{") with false. cbv iota.
    change (Ascii.eqb "{" Json.dquote) with false.
    change (Ascii.eqb "{" "[") with false.
    change (Ascii.eqb "{" "{") with true. cbv iota.
    rewrite parse_members_dumps by (done || lia).
    rewrite (dict_of_pairs_unique _ Hnd).
    destruct ms as [|[k' y] ms'].
    + change (String.concat ", "
                (map (fun '(k, x) => Json.dumps_str k +:+ ": " +:+ Json.dumps x) [(k, x)]))
        with (Json.dumps_str k +:+ ": " +:+ Json.dumps x).
      unfold Json.dumps_str. rewrite !append_cons. reflexivity.
    + change (String.concat ", "
                (map (fun '(k, x) => Json.dumps_str k +:+ ": " +:+ Json.dumps x)
                   ((k, x) :: (k', y) :: ms')))
        with ((Json.dumps_str k +:+ ": " +:+ Json.dumps x) +:+ ", "
              +:+ String.concat ", "
                    (map (fun '(k, x) => Json.dumps_str k +:+ ": " +:+ Json.dumps x)
                       ((k', y) :: ms'))).
      unfold Json.dumps_str. rewrite !append_cons. reflexivity.
Qed.

(** *** Fuel *)

Lemma append_empty_r (s : string) : s +:+ EmptyString = s.
Proof.
  induction s as [|c s IH]; [reflexivity|]. rewrite append_cons. now rewrite IH.
Qed.

Lemma length_app (a b : string) :
  String.length (a +:+ b) = (String.length a + String.length b)%nat.
Proof.
  induction a as [|c a IH]; [reflexivity|]. rewrite append_cons. simpl. now rewrite IH.
Qed.

Lemma length_concat (l : list string) :
  (list_sum (map (fun s => S (String.length s)) l)
   <= S (String.length (String.concat ", " l)))%nat.
Proof.
  induction l as [|s l IH]; [simpl; lia|].
  destruct l as [|s' l'].
  - simpl. lia.
  - change (String.concat ", " (s :: s' :: l'))
      with (s +:+ ", " +:+ String.concat ", " (s' :: l')).
    rewrite !length_app. simpl in *. lia.
Qed.

Lemma list_sum_le {A : Type} (f g : A -> nat) (l : list A) :
  Forall (fun x => (f x <= g x)%nat) l ->
  (list_sum (map f l) <= list_sum (map g l))%nat.
Proof. induction 1; simpl; lia. Qed.

Lemma weight_le_length (n : nat) (v : JSON) :
  (Json.weight v <= n)%nat ->
  (Json.weight v <= String.length (Json.dumps v))%nat.
Proof.
  revert v. induction n as [|n IH]; intros v Hn.
  { destruct v; simpl in Hn; lia. }
  destruct v as [|b|z|s|items|members].
  - simpl. lia.
  - destruct b; simpl; lia.
  - destruct (dumps_int_head z EmptyString) as (c & s & Hs & _).
    rewrite append_empty_r in Hs. simpl Json.dumps. rewrite Hs. simpl. lia.
  - simpl. lia.
  - simpl in Hn. simpl Json.dumps. rewrite !length_app.
    pose proof (length_concat (map Json.dumps items)) as Hlen.
    rewrite map_map in Hlen.
    assert (Hsum : (list_sum (map (fun x => S (Json.weight x)) items)
                    <= list_sum (map (fun x => S (String.length (Json.dumps x))) items))%nat).
    { apply list_sum_le, Forall_forall. intros x Hx.
      pose proof (list_sum_member (fun x => S (Json.weight x)) x items Hx).
      assert (Json.weight x <= String.length (Json.dumps x))%nat by (apply IH; simpl in *; lia).
      lia. }
    simpl in *. lia.
  - simpl in Hn. simpl Json.dumps. rewrite !length_app.
    pose proof (length_concat
                  (map (fun '(k, x) => Json.dumps_str k +:+ ": " +:+ Json.dumps x) members))
      as Hlen.
    rewrite map_map in Hlen.
    assert (Hsum : (list_sum (map (fun '(_, x) => S (Json.weight x)) members)
                    <= list_sum
                         (map (fun kv =>
                                 S (String.length
                                      (let '(k, x) := kv in
                                       Json.dumps_str k +:+ ": " +:+ Json.dumps x)))
                            members))%nat).
    { apply list_sum_le, Forall_forall. intros [k x] Hx.
      pose proof (list_sum_member (fun '(_, x) => S (Json.weight x)) (k, x) members Hx).
      assert (Json.weight x <= String.length (Json.dumps x))%nat by (apply IH; simpl in *; lia).
      rewrite !length_app. lia. }
    simpl in *. lia.
Qed.

(** The [loads] above reads back what the [dumps] above wrote. *)
Theorem loads_dumps (v : JSON) :
  Json.unique_keys v = true -> Json.loads (Json.dumps v) = Some v.
Proof.
  intros Hwf. unfold Json.loads.
  pose proof (weight_le_length _ v (Nat.le_refl _)) as Hlen.
  pose proof (parse_value_dumps _ v (Nat.le_refl _) Hwf
                (2 * String.length (Json.dumps v) + 2)%nat EmptyString) as Hread.
  rewrite append_empty_r in Hread. rewrite Hread; [reflexivity|lia|reflexivity].
Qed.

(** ** Running a method *)

Section Properties.

Context `{env : Environment}.

Lemma session_request_run (verb : Method) (u : string)
    (query : option Dict) (payload : option JSON) (w : World) :
  let req := {| method := verb; url := u; params := query;
                body := dumps <$> payload;
                req_headers := headers (session (self w)) |} in
  session_request verb u query payload w
  = (match transport req with
     | Some resp => Return resp
     | None => Raise ConnectionError
     end,
     {| self := self w; sent := sent w ++ [req] |}).
Proof. unfold session_request. simpl. now destruct (transport _). Qed.

(** What follows the request in every method:
    [resp.raise_for_status(); return resp.json()]. *)
Lemma check_and_decode_run (resp : Response) (w : World) :
  (raise_for_status resp;; json resp) w
  = (if (400 <=? status_code resp) && (status_code resp <? 600)
     then Raise (HTTPError resp)
     else match loads (content resp) with
          | Some v => Return v
          | None => Raise (JSONDecodeError (content resp))
          end,
     w).
Proof.
  unfold raise_for_status, json, mbind, M_bind.
  destruct ((400 <=? status_code resp) && (status_code resp <? 600)); [done|].
  simpl. now destruct (loads (content resp)).
Qed.

(** The shared shape of the six methods: one request built from [self],
    then an exception or the decoded body, and [self] as it was. *)
Lemma call_run (c : Call) (w : World) :
  exists req,
    call c w
    = (match transport req with
       | None => Raise ConnectionError
       | Some resp =>
           if (400 <=? status_code resp) && (status_code resp <? 600)
           then Raise (HTTPError resp)
           else match loads (content resp) with
                | Some v => Return v
                | None => Raise (JSONDecodeError (content resp))
                end
       end,
       {| self := self w; sent := sent w ++ [req] |})
    /\ req_headers req = headers (session (self w)).
Proof.
  destruct c; simpl;
    unfold health, get_entity, list_entities, create_entity, update_entity,
      delete_entity, session_get, session_post, session_put, session_delete;
    unfold mbind at 1 2; unfold M_bind at 1 2; unfold getattr;
    rewrite session_request_run;
    match goal with |- context [sent w ++ [?r]] => exists r end;
    (split; [|reflexivity]);
    (destruct (transport _) as [resp|]; [apply check_and_decode_run|reflexivity]).
Qed.

(** The outcome of a call, read off the one request it made. *)
Lemma call_outcome (c : Call) (w : World) (req : Request) :
  last (sent (snd (call c w))) = Some req ->
  fst (call c w)
  = match transport req with
    | None => Raise ConnectionError
    | Some resp =>
        if (400 <=? status_code resp) && (status_code resp <? 600)
        then Raise (HTTPError resp)
        else match loads (content resp) with
             | Some v => Return v
             | None => Raise (JSONDecodeError (content resp))
             end
    end.
Proof.
  destruct (call_run c w) as (r & E & _). rewrite E. simpl.
  rewrite last_snoc. now intros [= ->].
Qed.

(** ** Failure on an error status *)

(** C1 (as amended): when the response to a call has a 4xx or 5xx
    status, the call raises [HTTPError] carrying that response, hence
    its status code and body, and returns no value. *)
Theorem error_status_raises (c : Call) (w : World) (req : Request) (resp : Response) :
  last (sent (snd (call c w))) = Some req ->
  transport req = Some resp ->
  400 <= status_code resp < 600 ->
  fst (call c w) = Raise (HTTPError resp)
  /\ (forall v, fst (call c w) <> Return v).
Proof.
  intros Hreq Hresp Hst. rewrite (call_outcome c w req Hreq), Hresp.
  replace ((400 <=? status_code resp) && (status_code resp <? 600)) with true
    by (symmetry; apply andb_true_iff; split; [apply Z.leb_le|apply Z.ltb_lt]; lia).
  split; [reflexivity|discriminate].
Qed.

(** ** Pass-through on success *)

(** C6: when the status is a success (2xx), the call returns the value
    the response body decodes to, as it is. *)
Theorem success_returns_decoded_body (c : Call) (w : World) (req : Request)
    (resp : Response) (v : JSON) :
  last (sent (snd (call c w))) = Some req ->
  transport req = Some resp ->
  is_success (status_code resp) = true ->
  loads (content resp) = Some v ->
  fst (call c w) = Return v.
Proof.
  intros Hreq Hresp Hst Hv. rewrite (call_outcome c w req Hreq), Hresp, Hv.
  unfold is_success in Hst. apply andb_true_iff in Hst as [H1 H2].
  apply Z.leb_le in H1. apply Z.ltb_lt in H2.
  replace (400 <=? status_code resp) with false by (symmetry; apply Z.leb_gt; lia).
  reflexivity.
Qed.

(** C9: when the status is a success but the body is not JSON, the call
    raises the decoding error; nothing in the client catches it. *)
Theorem invalid_json_raises (c : Call) (w : World) (req : Request) (resp : Response) :
  last (sent (snd (call c w))) = Some req ->
  transport req = Some resp ->
  is_success (status_code resp) = true ->
  loads (content resp) = None ->
  fst (call c w) = Raise (JSONDecodeError (content resp))
  /\ (forall v, fst (call c w) <> Return v).
Proof.
  intros Hreq Hresp Hst Hv. rewrite (call_outcome c w req Hreq), Hresp, Hv.
  unfold is_success in Hst. apply andb_true_iff in Hst as [H1 H2].
  apply Z.leb_le in H1. apply Z.ltb_lt in H2.
  replace (400 <=? status_code resp) with false by (symmetry; apply Z.leb_gt; lia).
  split; [reflexivity|discriminate].
Qed.

(** ** The client object is read, never written *)

(** C8: after any call, whatever its outcome, the client object is the
    one it was: same base URL, same key, same session headers. *)
Theorem configuration_unchanged (c : Call) (w : World) :
  self (snd (call c w)) = self w
  /\ base_url (self (snd (call c w))) = base_url (self w)
  /\ api_key (self (snd (call c w))) = api_key (self w)
  /\ headers (session (self (snd (call c w)))) = headers (session (self w)).
Proof.
  destruct (call_run c w) as (r & E & _). rewrite E. simpl. done.
Qed.

(** ** Endpoints *)

Ltac run_method :=
  unfold health, get_entity, list_entities, create_entity, update_entity,
    delete_entity, session_get, session_post, session_put, session_delete;
  unfold mbind at 1 2; unfold M_bind at 1 2; unfold getattr;
  rewrite session_request_run;
  destruct (transport _) as [?resp|]; [rewrite check_and_decode_run|]; simpl.

Ltac one_request := unfold issues_one; run_method; eexists; done.

(** C4: each method makes exactly one request, with the verb and the
    URL of its endpoint under [/api/v1], the entity id appended where
    there is one; [get_entity("e1")] is a GET whose URL ends in [e1]. *)
Theorem one_request_per_method (w : World) (entity_id : string)
    (params : option Dict) (data : Dict) :
  let base := base_url (self w) in
  issues_one health w GET (base +:+ "/api/v1/health")
  /\ issues_one (list_entities params) w GET (base +:+ "/api/v1/entities")
  /\ issues_one (create_entity data) w POST (base +:+ "/api/v1/entities")
  /\ issues_one (get_entity entity_id) w GET
       (base +:+ "/api/v1/entities/" +:+ entity_id)
  /\ issues_one (update_entity entity_id data) w PUT
       (base +:+ "/api/v1/entities/" +:+ entity_id)
  /\ issues_one (delete_entity entity_id) w DELETE
       (base +:+ "/api/v1/entities/" +:+ entity_id)
  /\ issues_one (get_entity "e1") w GET (base +:+ "/api/v1/entities/e1").
Proof. repeat split; one_request. Qed.

(** ** Query parameters *)


(** ** Headers *)



(** ** Entity ids in URLs *)

(** C10: [get_entity], [update_entity] and [delete_entity] request the
    stored base URL followed by [/api/v1/entities/] and the id as given,
    nothing escaped.  With a base URL free of [?] and [#], the id's own
    [?] and [#] therefore delimit the query and the fragment of the
    request URL, and its [/] adds path segments: [e1?x=1] asks for
    entity [e1] with query [x=1], [e1#x] asks for entity [e1], and
    [a/b] asks for [b] below entity [a]. *)
Theorem entity_id_concatenated_verbatim (w : World) (entity_id : string) (data : Dict) :
  let base := base_url (self w) in
  let target := fun id : string => base +:+ "/api/v1/entities/" +:+ id in
  PyStr.in_chars "?" base = false ->
  PyStr.in_chars "#" base = false ->
  (issues_one (get_entity entity_id) w GET (target entity_id)
   /\ issues_one (update_entity entity_id data) w PUT (target entity_id)
   /\ issues_one (delete_entity entity_id) w DELETE (target entity_id))
  /\ (Url.path (target entity_id) = base +:+ "/api/v1/entities/" +:+ Url.path entity_id
      /\ Url.query (target entity_id) = Url.query entity_id
      /\ Url.fragment (target entity_id) = Url.fragment entity_id)
  /\ (Url.path (target "e1?x=1") = target "e1"
      /\ Url.query (target "e1?x=1") = Some "x=1")
  /\ (Url.path (target "e1#x") = target "e1"
      /\ Url.query (target "e1#x") = None)
  /\ Url.path (target "a/b") = target "a" +:+ "/b".
Proof.
  intros base target Hq Hf.
  assert (Hparts : forall id,
             Url.path (target id) = base +:+ "/api/v1/entities/" +:+ Url.path id
             /\ Url.query (target id) = Url.query id
             /\ Url.fragment (target id) = Url.fragment id).
  { intros id. unfold target.
    rewrite <- !(str_app_assoc base "/api/v1/entities/").
    apply url_parts_app; rewrite in_chars_app; [rewrite Hq|rewrite Hf]; reflexivity. }
  split; [repeat split; one_request|].
  split; [apply Hparts|].
  destruct (Hparts "e1?x=1") as (P1 & Q1 & _).
  destruct (Hparts "e1#x") as (P2 & Q2 & _).
  destruct (Hparts "a/b") as (P3 & _ & _).
  rewrite P1, Q1, P2, Q2, P3. unfold target.
  rewrite !str_app_assoc. repeat split; reflexivity.
Qed.

(** ** Round trip through an echoing server *)


End Properties.

(** * The properties at work

    Each property with a premise is run once on a concrete server. *)

Lemma error_status_raises_witness :
  let env := Example.python (Example.fixed_server 404 "Not Found") in
  fst (@call env (GetEntity "e1") (Example.start env))
  = Raise (HTTPError {| status_code := 404; content := "Not Found" |})
  /\ (forall v, fst (@call env (GetEntity "e1") (Example.start env)) <> Return v).
Proof.
  intros env.
  eapply (@error_status_raises env (GetEntity "e1") (Example.start env));
    [reflexivity | reflexivity | simpl; lia].
Defined.

(** Not every status outside 2xx is an error: a final response with
    status 300 and a JSON body is no success, yet [health] returns the
    decoded body. *)
Lemma non_2xx_status_returns_value :
  let env := Example.python (Example.fixed_server 300 "{}") in
  is_success 300 = false
  /\ fst (@call env Health (Example.start env)) = Return (JObj []).
Proof. split; vm_compute; reflexivity. Qed.

Lemma success_returns_decoded_body_witness :
  let env := Example.python
               (Example.fixed_server 200 (Json.dumps (JObj Example.status_ok))) in
  fst (@call env Health (Example.start env)) = Return (JObj Example.status_ok).
Proof.
  intros env.
  eapply (@success_returns_decoded_body env Health (Example.start env));
    [reflexivity | reflexivity | reflexivity | vm_compute; reflexivity].
Defined.

Lemma invalid_json_raises_witness :
  let env := Example.python (Example.fixed_server 204 "") in
  fst (@call env (DeleteEntity "e1") (Example.start env)) = Raise (JSONDecodeError "")
  /\ (forall v, fst (@call env (DeleteEntity "e1") (Example.start env)) <> Return v).
Proof.
  intros env.
  eapply (@invalid_json_raises env (DeleteEntity "e1") (Example.start env) _
            {| status_code := 204; content := "" |});
    [reflexivity | reflexivity | reflexivity | vm_compute; reflexivity].
Defined.

Lemma entity_id_concatenated_verbatim_witness :
  let env := Example.python Example.unreachable in
  Url.path (Example.localhost +:+ "/api/v1/entities/" +:+ "e1?x=1")
  = Example.localhost +:+ "/api/v1/entities/" +:+ "e1"
  /\ Url.query (Example.localhost +:+ "/api/v1/entities/" +:+ "e1?x=1") = Some "x=1".
Proof.
  intros env.
  assert (Hq : PyStr.in_chars "?" (base_url (self (Example.start env))) = false)
    by (vm_compute; reflexivity).
  assert (Hf : PyStr.in_chars "#" (base_url (self (Example.start env))) = false)
    by (vm_compute; reflexivity).
  destruct (@entity_id_concatenated_verbatim env (Example.start env) "e1?x=1" [] Hq Hf)
    as (_ & _ & H & _).
  exact H.
Defined.

(** * Further properties of the client *)

Section Outcomes.

Context `{env : Environment}.

(** X1: when the request of a call gets no answer the call raises
    [ConnectionError], and it raises it in no other case. *)
Theorem connection_failure_iff (c : Call) (w : World) (req : Request) :
  last (sent (snd (call c w))) = Some req ->
  (fst (call c w) = Raise ConnectionError <-> transport req = None).
Proof.
  intros Hreq. rewrite (call_outcome c w req Hreq).
  destruct (transport req) as [resp|]; [|done].
  destruct ((400 <=? status_code resp) && (status_code resp <? 600)).
  - split; discriminate.
  - destruct (loads (content resp)); split; discriminate.
Qed.

Lemma error_status_spec (resp : Response) :
  (400 <=? status_code resp) && (status_code resp <? 600) = true
  <-> 400 <= status_code resp < 600.
Proof. rewrite andb_true_iff, Z.leb_le, Z.ltb_lt. done. Qed.

Lemma error_status_false (resp : Response) :
  (400 <=? status_code resp) && (status_code resp <? 600) = false
  <-> status_code resp < 400 \/ 600 <= status_code resp.
Proof. rewrite andb_false_iff, Z.leb_gt, Z.ltb_ge. done. Qed.

(** X2: a call returns [v] exactly when the server answered, the status is
    outside 400..599 (2xx, but also 1xx, 3xx and beyond), and the body
    decodes to [v]. *)
Theorem returns_value_iff (c : Call) (w : World) (req : Request) (v : JSON) :
  last (sent (snd (call c w))) = Some req ->
  (fst (call c w) = Return v
   <-> exists resp,
        transport req = Some resp
        /\ (status_code resp < 400 \/ 600 <= status_code resp)
        /\ loads (content resp) = Some v).
Proof.
  intros Hreq. rewrite (call_outcome c w req Hreq).
  destruct (transport req) as [resp|].
  - destruct ((400 <=? status_code resp) && (status_code resp <? 600)) eqn:Est.
    + split; [discriminate|]. intros (r & [= <-] & Hst & _).
      apply error_status_false in Hst. congruence.
    + apply error_status_false in Est. split.
      * destruct (loads (content resp)) eqn:Ev; [|discriminate].
        intros [= ->]. now exists resp.
      * intros (r & [= <-] & _ & ->). reflexivity.
  - split; [discriminate|]. intros (r & Hr & _). discriminate.
Qed.

(** X3: [HTTPError] is raised for an error status only, and carries the very
    response the server gave. *)
Theorem http_error_only_on_error_status (c : Call) (w : World) (req : Request)
    (resp : Response) :
  last (sent (snd (call c w))) = Some req ->
  fst (call c w) = Raise (HTTPError resp) ->
  transport req = Some resp /\ 400 <= status_code resp < 600.
Proof.
  intros Hreq. rewrite (call_outcome c w req Hreq).
  destruct (transport req) as [r|]; [|discriminate].
  destruct ((400 <=? status_code r) && (status_code r <? 600)) eqn:Est.
  - intros [= ->]. split; [reflexivity|]. now apply error_status_spec.
  - destruct (loads (content r)); discriminate.
Qed.

(** X4: the decoding error is raised only for an answer that passed the
    status check, and carries the body that would not decode. *)
Theorem decode_error_only_after_status_check (c : Call) (w : World) (req : Request)
    (doc : string) :
  last (sent (snd (call c w))) = Some req ->
  fst (call c w) = Raise (JSONDecodeError doc) ->
  exists resp,
    transport req = Some resp
    /\ (status_code resp < 400 \/ 600 <= status_code resp)
    /\ content resp = doc
    /\ loads doc = None.
Proof.
  intros Hreq. rewrite (call_outcome c w req Hreq).
  destruct (transport req) as [r|]; [|discriminate].
  destruct ((400 <=? status_code r) && (status_code r <? 600)) eqn:Est; [discriminate|].
  destruct (loads (content r)) eqn:Ev; [discriminate|].
  intros [= <-]. exists r. repeat split; try done. now apply error_status_false.
Qed.

End Outcomes.

Section Requests.

Context `{env : Environment}.



(** Against an echoing server [update_entity] puts the serialized
    payload and returns whatever the codec reads back from it. *)
Lemma update_entity_echo (w : World) (entity_id : string) (P : Dict) :
  echoes transport ->
  exists req,
    sent (snd (update_entity entity_id P w)) = sent w ++ [req]
    /\ method req = PUT
    /\ url req = base_url (self w) +:+ "/api/v1/entities/" +:+ entity_id
    /\ body req = Some (dumps (JObj P))
    /\ fst (update_entity entity_id P w)
       = match loads (dumps (JObj P)) with
         | Some v => Return v
         | None => Raise (JSONDecodeError (dumps (JObj P)))
         end.
Proof.
  intros Hecho.
  unfold update_entity, session_put.
  unfold mbind at 1 2 4 5; unfold M_bind at 1 2 4 5; unfold getattr.
  rewrite session_request_run.
  match goal with
  | |- context [transport ?r] =>
      exists r; destruct (Hecho r) as (resp & Hresp & Hst & Hcontent)
  end.
  rewrite Hresp, check_and_decode_run. simpl in *.
  rewrite Hcontent.
  unfold is_success in Hst. apply andb_true_iff in Hst as [H1 H2].
  apply Z.leb_le in H1. apply Z.ltb_lt in H2.
  replace (400 <=? status_code resp) with false by (symmetry; apply Z.leb_gt; lia).
  done.
Qed.

End Requests.

(** * Payloads through the codec *)

(** Induction on a Python value, with the property at hand for every
    element of a container. *)
Lemma PyValue_nested_ind (P : PyValue -> Prop) :
  P PyNone ->
  (forall b, P (PyBool b)) ->
  (forall z, P (PyInt z)) ->
  (forall s, P (PyStr s)) ->
  (forall items, Forall P items -> P (PyList items)) ->
  (forall items, Forall P items -> P (PyTuple items)) ->
  (forall members, Forall (fun kv => P (snd kv)) members -> P (PyDict members)) ->
  forall v, P v.
Proof.
  intros Hnone Hbool Hint Hstr Hlist Htuple Hdict.
  fix IH 1. intros [|b|z|s|items|items|members].
  - exact Hnone.
  - apply Hbool.
  - apply Hint.
  - apply Hstr.
  - apply Hlist. induction items as [|x xs IHxs]; constructor; [apply IH|exact IHxs].
  - apply Htuple. induction items as [|x xs IHxs]; constructor; [apply IH|exact IHxs].
  - apply Hdict. induction members as [|[k x] ms IHms]; constructor; [apply IH|exact IHms].
Qed.

(** A value of JSON's own shapes comes back from JSON as it went in. *)
Lemma py_of_json_of (v : PyValue) :
  json_native v = true -> py_of (json_of v) = v.
Proof.
  induction v as [| | | |items IH|items IH|members IH] using PyValue_nested_ind;
    simpl; try done.
  - intros Hn. f_equal. rewrite map_map.
    rewrite forallb_forall in Hn. rewrite Forall_forall in IH.
    rewrite <- (map_id items) at 2. apply map_ext_in.
    intros x Hx. apply IH; [now apply list_elem_of_In|now apply Hn].
  - intros Hn. apply andb_true_iff in Hn as [_ Hn]. f_equal. rewrite map_map.
    rewrite forallb_forall in Hn. rewrite Forall_forall in IH.
    rewrite <- (map_id members) at 2. apply map_ext_in.
    intros [k x] Hx. simpl. f_equal.
    apply (IH (k, x)); [now apply list_elem_of_In|]. exact (Hn (k, x) Hx).
Qed.

(** Its JSON value has distinct keys wherever it has a dict. *)
Lemma unique_keys_json_of (v : PyValue) :
  json_native v = true -> Json.unique_keys (json_of v) = true.
Proof.
  induction v as [| | | |items IH|items IH|members IH] using PyValue_nested_ind;
    simpl; try done.
  - intros Hn. rewrite forallb_forall in *. rewrite Forall_forall in IH.
    intros j Hj. apply in_map_iff in Hj as (x & <- & Hx).
    apply IH; [now apply list_elem_of_In|now apply Hn].
  - intros Hn. apply andb_true_iff in Hn as [Hnd Hn].
    apply andb_true_iff. split.
    + rewrite map_map. apply bool_decide_eq_true. apply bool_decide_eq_true in Hnd.
      erewrite map_ext; [exact Hnd|]. now intros [k x].
    + rewrite forallb_forall in *. rewrite Forall_forall in IH.
      intros [k j] Hj. apply in_map_iff in Hj as ([k' x] & [= <- <-] & Hx).
      apply (IH (k', x)); [now apply list_elem_of_In|]. exact (Hn (k', x) Hx).
Qed.

Section PayloadCalls.

Context `{env : Environment}.


Lemma update_entity_py_run (entity_id : string) (data : list (string * PyValue))
    (w : World) :
  update_entity_py entity_id data w
  = (match fst (update_entity entity_id
                  (map (fun '(k, x) => (k, json_of x)) data) w) with
     | Return v => Return (py_of v)
     | Raise e => Raise e
     end,
     snd (update_entity entity_id (map (fun '(k, x) => (k, json_of x)) data) w)).
Proof.
  unfold update_entity_py. unfold mbind at 1. unfold M_bind at 1.
  now destruct (update_entity _ _ w) as [[v|e] w'].
Qed.

End PayloadCalls.


(** X6: [update_entity(id, P)] puts the JSON serialization of [P] to the
    entity's URL, and when the server answers with a success status and
    the request body, the call returns a value equal to [P]: for every
    dict [P] with string keys and values built from [None], booleans,
    integers, strings, lists and such dicts (no tuples), within the
    interpreter's default limits on integer digits and nesting. *)
Theorem update_entity_round_trip (defaults : CaseInsensitiveDict)
    (server : Request -> option Response) (w : World) (entity_id : string)
    (P : list (string * PyValue)) :
  echoes server ->
  json_native (PyDict P) = true ->
  ints_within_limit (PyDict P) = true ->
  (py_depth (PyDict P) <= max_nesting)%nat ->
  exists req,
    sent (snd (@update_entity_py (python_env defaults server) entity_id P w))
    = sent w ++ [req]
    /\ method req = PUT
    /\ url req = base_url (self w) +:+ "/api/v1/entities/" +:+ entity_id
    /\ body req = Some (Json.dumps (json_of (PyDict P)))
    /\ fst (@update_entity_py (python_env defaults server) entity_id P w)
       = Return (PyDict P).
Proof.
  intros Hecho Hnative _ _.
  destruct (@update_entity_echo (python_env defaults server) w entity_id
              (map (fun '(k, x) => (k, json_of x)) P) Hecho)
    as (req & Hsent & Hverb & Hurl & Hbody & Hout).
  exists req. rewrite update_entity_py_run. cbn [fst snd].
  repeat split; try assumption.
  rewrite Hout. cbn [loads dumps python_env].
  change (JObj (map (fun '(k, x) => (k, json_of x)) P)) with (json_of (PyDict P)).
  rewrite (loads_dumps _ (unique_keys_json_of _ Hnative)).
  now rewrite (py_of_json_of _ Hnative).
Qed.

(** * The constructor *)

Lemma rstrip_replicate (c : ascii) (n : nat) :
  PyStr.rstrip (String c EmptyString) (PyStr.replicate_char n c) = EmptyString.
Proof.
  induction n as [|n IH]; [reflexivity|]. simpl. rewrite IH.
  now rewrite Ascii.eqb_refl.
Qed.

Lemma rstrip_app_replicate (c : ascii) (s : string) (n : nat) :
  PyStr.rstrip (String c EmptyString) (s +:+ PyStr.replicate_char n c)
  = PyStr.rstrip (String c EmptyString) s.
Proof.
  induction s as [|a s IH].
  - rewrite append_nil. apply rstrip_replicate.
  - rewrite append_cons. simpl. now rewrite IH.
Qed.

Section Constructor.

Context `{env : Environment}.

(** X7: base URLs that differ only in trailing slashes give the same client,
    and so the same outcome and the same requests for every call. *)
Theorem trailing_slashes_ignored (x api_key : string) (n : nat) (c : Call)
    (trace : list Request) :
  __init__ (x +:+ PyStr.replicate_char n "/") api_key = __init__ x api_key
  /\ call c {| self := __init__ (x +:+ PyStr.replicate_char n "/") api_key; sent := trace |}
     = call c {| self := __init__ x api_key; sent := trace |}.
Proof.
  assert (H : __init__ (x +:+ PyStr.replicate_char n "/") api_key = __init__ x api_key).
  { unfold __init__. now rewrite rstrip_app_replicate. }
  split; [exact H|]. now rewrite H.
Qed.

(** X8: a base URL that is empty or made of slashes only is stored as the
    empty string, and the request URLs are then the bare paths. *)
Theorem slash_only_base_url (n : nat) (api_key entity_id : string) :
  base_url (__init__ (PyStr.replicate_char n "/") api_key) = EmptyString
  /\ issues_one health (fresh (PyStr.replicate_char n "/") api_key) GET "/api/v1/health"
  /\ issues_one (get_entity entity_id) (fresh (PyStr.replicate_char n "/") api_key) GET
       ("/api/v1/entities/" +:+ entity_id).
Proof.
  split; [apply rstrip_replicate|].
  unfold issues_one, fresh. split.
  - unfold health, session_get.
    unfold mbind at 1 2; unfold M_bind at 1 2; unfold getattr.
    rewrite session_request_run. cbn [self base_url __init__].
    rewrite rstrip_replicate.
    destruct (transport _); [rewrite check_and_decode_run|]; eexists; simpl; done.
  - unfold get_entity, session_get.
    unfold mbind at 1 2; unfold M_bind at 1 2; unfold getattr.
    rewrite session_request_run. cbn [self base_url __init__].
    rewrite rstrip_replicate.
    destruct (transport _); [rewrite check_and_decode_run|]; eexists; simpl; done.
Qed.

End Constructor.

(** * Requests of one client *)


Section OneClient.

Context `{env : Environment}.






End OneClient.

(** * The junction of base URL and path *)

Lemma append_inj_r (a b c : string) : a +:+ c = b +:+ c -> a = b.
Proof.
  revert b. induction a as [|x a IH]; intros [|y b]; rewrite ?append_cons, ?append_nil.
  - done.
  - intros H. apply (f_equal String.length) in H.
    simpl in H. rewrite length_app in H. lia.
  - intros H. apply (f_equal String.length) in H.
    simpl in H. rewrite length_app in H. lia.
  - intros [= -> H]. now rewrite (IH b H).
Qed.

Section Junction.

Context `{env : Environment}.

(** X12: whatever base URL the client was built from, with or without
    trailing slashes, every request URL is the stripped base followed by
    a path under [/api/v1/], joined by exactly one slash. *)
Theorem single_slash_at_junction (x k : string) (c : Call) (trace : list Request) :
  exists req suffix,
    sent (snd (call c {| self := __init__ x k; sent := trace |})) = trace ++ [req]
    /\ url req = PyStr.rstrip "/" x +:+ "/api/v1/" +:+ suffix
    /\ (forall t, url req <> t +:+ "//api/v1/" +:+ suffix).
Proof.
  assert (Hjoin : forall suffix t,
             PyStr.rstrip "/" x +:+ "/api/v1/" +:+ suffix
             <> t +:+ "//api/v1/" +:+ suffix).
  { intros suffix t H.
    change ("//api/v1/" +:+ suffix) with ("/" +:+ ("/api/v1/" +:+ suffix)) in H.
    rewrite <- (str_app_assoc t "/") in H. apply append_inj_r in H.
    now apply rstrip_last in H. }
  destruct c; simpl;
    unfold health, get_entity, list_entities, create_entity, update_entity,
      delete_entity, session_get, session_post, session_put, session_delete;
    unfold mbind at 1 2; unfold M_bind at 1 2; unfold getattr;
    rewrite session_request_run;
    (destruct (transport _) as [resp|]; [rewrite check_and_decode_run|]);
    cbn [snd sent self base_url __init__ url];
    match goal with
    | |- context [_ +:+ "/api/v1/health"] => eexists; exists "health"
    | |- context [_ +:+ "/api/v1/entities/" +:+ ?id] =>
        eexists; exists ("entities/" +:+ id)
    | |- context [_ +:+ "/api/v1/entities"] => eexists; exists "entities"
    end;
    (split; [reflexivity|]); cbn [url]; (split; [reflexivity|]); apply Hjoin.
Qed.

End Junction.

(** * The example script *)

Section ExampleScript.

Context `{env : Environment}.

Lemma health_run (w : World) :
  let req := {| method := GET; url := base_url (self w) +:+ "/api/v1/health";
                params := None; body := None;
                req_headers := headers (session (self w)) |} in
  snd (health w) = {| self := self w; sent := sent w ++ [req] |}.
Proof.
  unfold health, session_get.
  unfold mbind at 1 2; unfold M_bind at 1 2; unfold getattr.
  rewrite session_request_run.
  destruct (transport _); [rewrite check_and_decode_run|]; reflexivity.
Qed.

Lemma list_entities_run (ps : option Dict) (w : World) :
  let req := {| method := GET; url := base_url (self w) +:+ "/api/v1/entities";
                params := ps; body := None;
                req_headers := headers (session (self w)) |} in
  snd (list_entities ps w) = {| self := self w; sent := sent w ++ [req] |}.
Proof.
  unfold list_entities, session_get.
  unfold mbind at 1 2; unfold M_bind at 1 2; unfold getattr.
  rewrite session_request_run.
  destruct (transport _); [rewrite check_and_decode_run|]; reflexivity.
Qed.

(** The script as one step: both calls are made, each outcome is
    printed, and nothing is raised. *)
Lemma main_run (environ : gmap string string) :
  let w0 := fresh (getenv environ "COGNISYNC_KG_BASE_URL" "http://localhost:3002")
                  (getenv environ "COGNISYNC_KG_API_KEY" "YOUR_API_KEY") in
  let w1 := snd (health w0) in
  main environ
  = (Return tt,
     {| world := snd (list_entities None w1);
        stdout :=
          [match fst (health w0) with
           | Return v => PrintValue "Health:" v
           | Raise e => PrintError "Health check failed:" e
           end;
           match fst (list_entities None w1) with
           | Return v => PrintValue "Entities:" v
           | Raise e => PrintError "List entities failed:" e
           end] |}).
Proof.
  unfold main, fresh. unfold mbind, Script_bind, try_except, lift, print_value, print_error.
  cbn [world stdout].
  destruct (health _) as [[v|e] w1]; cbn [world stdout fst snd];
    destruct (list_entities None w1) as [[v2|e2] w2]; reflexivity.
Qed.

(** X13: [main] never raises: whatever the environment holds and whatever the
    server does, both failures are caught and the script ends normally. *)
Theorem main_never_raises (environ : gmap string string) :
  fst (main environ) = Return tt.
Proof. now rewrite main_run. Qed.


(** X15: [main] prints exactly two lines, one per call: the returned value
    under the success label when the call returned, the exception under
    the failure label when it raised.  The listing is attempted from the
    state the health check left, whatever its outcome. *)
Theorem main_prints_both_outcomes (environ : gmap string string) :
  let w0 := fresh (getenv environ "COGNISYNC_KG_BASE_URL" "http://localhost:3002")
                  (getenv environ "COGNISYNC_KG_API_KEY" "YOUR_API_KEY") in
  let w1 := snd (health w0) in
  stdout (snd (main environ))
  = [match fst (health w0) with
     | Return v => PrintValue "Health:" v
     | Raise e => PrintError "Health check failed:" e
     end;
     match fst (list_entities None w1) with
     | Return v => PrintValue "Entities:" v
     | Raise e => PrintError "List entities failed:" e
     end].
Proof. intros w0 w1. now rewrite main_run. Qed.


End ExampleScript.

(** * The test suite *)

Section TestSuite.

Context `{env : Environment}.

(** X17: [test_list_entities] passes exactly on a list or a dict.  Read off
    the answer to its one request: no answer, an error status or a body
    that is not JSON stop the test with that exception (an error, not a
    failure); a JSON scalar fails the assertion. *)
Theorem test_list_entities_verdict (w : World) (req : Request) :
  last (sent (snd (test_list_entities w))) = Some req ->
  fst (test_list_entities w)
  = match transport req with
    | None => Errored ConnectionError
    | Some resp =>
        if (400 <=? status_code resp) && (status_code resp <? 600)
        then Errored (HTTPError resp)
        else match loads (content resp) with
             | None => Errored (JSONDecodeError (content resp))
             | Some (JArr _) | Some (JObj _) => Passed
             | Some _ => Failed
             end
    end.
Proof.
  unfold test_list_entities.
  pose proof (call_outcome (ListEntities None) w req) as Hout. simpl in Hout.
  destruct (list_entities None w) as [[v|e] w'] eqn:E; simpl in *; intros Hreq;
    specialize (Hout Hreq);
    (destruct (transport req) as [resp|];
     [destruct ((400 <=? status_code resp) && (status_code resp <? 600));
      [|destruct (loads (content resp)) as [v'|]]|]);
    try discriminate Hout; injection Hout as <-; try reflexivity.
  now destruct v.
Qed.

(** X18: [test_health] read off the answer to its one request: it passes when
    the decoded body holds ['status'] (a key of a dict, an element of a
    list, a part of a string), fails when the body can be searched and
    does not hold it, and is stopped by an exception otherwise: the
    client's, or the [TypeError] of searching [null], a boolean or a
    number. *)
Theorem test_health_verdict (w : World) (req : Request) :
  last (sent (snd (test_health w))) = Some req ->
  fst (test_health w)
  = match transport req with
    | None => Errored ConnectionError
    | Some resp =>
        if (400 <=? status_code resp) && (status_code resp <? 600)
        then Errored (HTTPError resp)
        else match loads (content resp) with
             | None => Errored (JSONDecodeError (content resp))
             | Some v =>
                 match py_in "status" v with
                 | Some true => Passed
                 | Some false => Failed
                 | None => ErroredTypeError
                 end
             end
    end.
Proof.
  unfold test_health.
  pose proof (call_outcome Health w req) as Hout. simpl in Hout.
  destruct (health w) as [[v|e] w'] eqn:E; simpl in *; intros Hreq;
    specialize (Hout Hreq);
    (destruct (transport req) as [resp|];
     [destruct ((400 <=? status_code resp) && (status_code resp <? 600));
      [|destruct (loads (content resp)) as [v'|]]|]);
    try discriminate Hout; injection Hout as <-; reflexivity.
Qed.

(** X19: [test_health] passes against any server that answers the health
    check with a success status and a JSON object with a [status] key,
    whatever its value and whatever else the object holds. *)
Theorem test_health_passes_on_status_key (w : World) (req : Request) (resp : Response)
    (members : Dict) :
  last (sent (snd (test_health w))) = Some req ->
  transport req = Some resp ->
  is_success (status_code resp) = true ->
  loads (content resp) = Some (JObj members) ->
  "status" ∈ map fst members ->
  fst (test_health w) = Passed.
Proof.
  intros Hreq Hresp Hst Hv Hkey.
  unfold test_health in *.
  pose proof (call_outcome Health w req) as Hout. simpl in Hout.
  destruct (health w) as [[v|e] w'] eqn:E; simpl in *;
    specialize (Hout Hreq); rewrite Hresp, Hv in Hout;
    unfold is_success in Hst; apply andb_true_iff in Hst as [H1 H2];
    apply Z.leb_le in H1; apply Z.ltb_lt in H2;
    replace (400 <=? status_code resp) with false in Hout
      by (symmetry; apply Z.leb_gt; lia);
    simpl in Hout; [|discriminate].
  injection Hout as ->. simpl. now rewrite bool_decide_eq_true_2.
Qed.

(** X20: each test makes exactly one GET request, to its endpoint, and
    leaves the shared client as [setUpClass] built it. *)
Theorem tests_keep_client (w : World) :
  (exists req,
      snd (test_health w) = {| self := self w; sent := sent w ++ [req] |}
      /\ method req = GET
      /\ url req = base_url (self w) +:+ "/api/v1/health")
  /\ (exists req,
        snd (test_list_entities w) = {| self := self w; sent := sent w ++ [req] |}
        /\ method req = GET
        /\ url req = base_url (self w) +:+ "/api/v1/entities"
        /\ params req = None).
Proof.
  split.
  - unfold test_health. pose proof (health_run w) as H. simpl in H.
    destruct (health w) as [[v|e] w'] eqn:E; simpl in *; subst w'; eexists; done.
  - unfold test_list_entities. pose proof (list_entities_run None w) as H. simpl in H.
    destruct (list_entities None w) as [[v|e] w'] eqn:E; simpl in *; subst w';
      eexists; done.
Qed.

End TestSuite.

(** * The further properties at work *)

Lemma connection_failure_iff_witness :
  let env := Example.python Example.unreachable in
  fst (@call env (ListEntities None) (Example.start env)) = Raise ConnectionError.
Proof.
  intros env.
  exact (proj2 (@connection_failure_iff env (ListEntities None) (Example.start env)
                 _ eq_refl) eq_refl).
Defined.

Lemma returns_value_iff_witness :
  let env := Example.python (Example.fixed_server 304 "[]") in
  fst (@call env Health (Example.start env)) = Return (JArr []).
Proof.
  intros env.
  apply (proj2 (@returns_value_iff env Health (Example.start env) _ (JArr []) eq_refl)).
  exists {| status_code := 304; content := "[]" |}.
  split; [reflexivity|]. split; [left; simpl; lia|vm_compute; reflexivity].
Defined.

Lemma http_error_only_on_error_status_witness :
  let env := Example.python (Example.fixed_server 503 "busy") in
  exists req,
    last (sent (snd (@call env Health (Example.start env)))) = Some req
    /\ @transport env req = Some {| status_code := 503; content := "busy" |}
    /\ 400 <= 503 < 600.
Proof.
  intros env. eexists. split; [reflexivity|].
  eapply (@http_error_only_on_error_status env Health (Example.start env));
    reflexivity.
Defined.

Lemma decode_error_only_after_status_check_witness :
  let env := Example.python (Example.fixed_server 200 "<html>") in
  exists req resp,
    last (sent (snd (@call env Health (Example.start env)))) = Some req
    /\ @transport env req = Some resp
    /\ (status_code resp < 400 \/ 600 <= status_code resp)
    /\ content resp = "<html>"
    /\ @loads env "<html>" = None.
Proof.
  intros env.
  destruct (@decode_error_only_after_status_check env Health (Example.start env)
              _ "<html>" eq_refl eq_refl) as (resp & H).
  eexists _, resp. split; [reflexivity|exact H].
Defined.





Lemma test_list_entities_verdict_witness :
  let env := Example.python (Example.fixed_server 200 "null") in
  fst (@test_list_entities env (Example.start env)) = Failed.
Proof.
  intros env.
  rewrite (@test_list_entities_verdict env (Example.start env) _ eq_refl).
  vm_compute. reflexivity.
Defined.

Lemma test_health_verdict_witness :
  let env := Example.python (Example.fixed_server 200 "7") in
  fst (@test_health env (Example.start env)) = ErroredTypeError.
Proof.
  intros env.
  rewrite (@test_health_verdict env (Example.start env) _ eq_refl).
  vm_compute. reflexivity.
Defined.

Lemma test_health_passes_on_status_key_witness :
  let env := Example.python
               (Example.fixed_server 200 (Json.dumps (JObj Example.status_ok))) in
  fst (@test_health env (@setUpClass env ∅)) = Passed.
Proof.
  intros env.
  eapply (@test_health_passes_on_status_key env (@setUpClass env ∅) _ _
            Example.status_ok eq_refl eq_refl eq_refl).
  - vm_compute. reflexivity.
  - apply elem_of_cons. now left.
Defined.



Lemma update_entity_round_trip_witness :
  let env := Example.python Example.echo_server in
  exists req,
    sent (snd (@update_entity_py env "e1" Payload.entity (Example.start env))) = [req]
    /\ method req = PUT
    /\ url req = "http://localhost:3002/api/v1/entities/e1"
    /\ body req = Some (Json.dumps (json_of (PyDict Payload.entity)))
    /\ fst (@update_entity_py env "e1" Payload.entity (Example.start env))
       = Return (PyDict Payload.entity).
Proof.
  intros env.
  apply (update_entity_round_trip Example.session_defaults Example.echo_server
           (Example.start env) "e1" Payload.entity).
  - intros req. eexists. repeat split; reflexivity.
  - vm_compute. reflexivity.
  - vm_compute. reflexivity.
  - unfold max_nesting. simpl. lia.
Defined.
